(** * SurvivorPool: pick validation and day processing

    A shallow embedding of the contest engine of the survivor-pool server
    ([src/app.js], and the identical logic of [src/serve.mjs]): the
    [POST /api/picks] handler, the [POST /api/admin/process-day] handler and
    the helper [getRequiredPicks], followed by the properties of the
    specification that concern them.

    JSON objects used as dictionaries ([player.picks], [player.results],
    the games file) are finite maps keyed by strings, a key being present
    when it is an own property holding an array (resp. a result string); a
    JavaScript [Set] of team names is a finite set; arrays are lists; the
    numbers of the records are integers, added with the rounding of the
    number type ([jsAdd]). The JSON files that a handler
    rewrites are threaded explicitly: every handler returns its response
    together with the contents of the store after the call. *)

From stdpp Require Import gmap strings list fin_maps.
From Stdlib Require Import ZArith.

(** ** Data model *)

(** [DAY_ORDER], the fixed tournament calendar. *)
Definition DAY_ORDER : list string :=
  [ "thursday_r1"; "friday_r1"; "saturday_r2"; "sunday_r2";
    "thursday_s16"; "friday_s16"; "saturday_e8"; "sunday_e8";
    "saturday_ff"; "monday_champ" ].

(** [player.status] takes the two string literals ['alive'] and
    ['eliminated']; [player.results[day]] the three literals ['pending'],
    ['win'] and ['loss']. *)
Inductive Status := alive | eliminated.
Inductive DayResult := pending | win | loss.

#[global] Instance Status_eq_dec : EqDecision Status.
Proof. solve_decision. Defined.
#[global] Instance DayResult_eq_dec : EqDecision DayResult.
Proof. solve_decision. Defined.

(** A record of [players.json]. *)
Record Player := mkPlayer {
  player_id : Z;
  name : string;
  status : Status;
  buybacks : Z;
  needsBuyback : bool;
  totalSpent : Z;
  picks : gmap string (list string);
  results : gmap string DayResult
}.

(** A game of [games.json]; [winner] is absent until a result is posted. *)
Record Game := mkGame {
  game_id : string;
  home : string;
  away : string;
  homeScore : option Z;
  awayScore : option Z;
  final : bool;
  winner : option string
}.

(** [config.json]. [currentDay] may be unset. *)
Record Config := mkConfig {
  teams : list string;
  buybackDays : list string;
  currentDay : option string;
  siteLocked : bool;
  lockMessage : string;
  adminPassword : string
}.

(** The error responses of the two handlers, with the data their messages
    carry. *)
Inductive ApiError :=
  | SiteLocked
  | MissingFields
  | PlayerNotFound
  | AlreadySubmitted
  | DuplicatePick
  | TeamReused (team : string)
  | InvalidTeam (team : string)
  | WrongPickCount (required : nat)
  | BuybackLimitReached
  | BuybackNotAllowedToday
  | Unauthorized
  | MissingDay.

(** ** JavaScript numbers and objects *)

(** The integers up to this bound, [2^53], are numbers that the arithmetic
    of the code treats exactly. *)
Definition maxExact : Z := 9007199254740992.

(** The number nearest to an integer [x]: [x] itself up to [2^53], and
    beyond it the nearest multiple of the spacing of the numbers around
    [x], a tie going to the even multiple. *)
Definition roundToDouble (x : Z) : Z :=
  if bool_decide (Z.abs x ≤ maxExact)%Z then x
  else
    let e := (Z.log2 (Z.abs x) - 52)%Z in
    let q := (Z.abs x / 2 ^ e)%Z in
    let r := (Z.abs x mod 2 ^ e)%Z in
    let half := (2 ^ (e - 1))%Z in
    let q' :=
      if bool_decide (r < half)%Z then q
      else if bool_decide (half < r)%Z then (q + 1)%Z
      else if Z.even q then q else (q + 1)%Z in
    (Z.sgn x * (q' * 2 ^ e))%Z.

(** [a + b] on numbers that hold integers. *)
Definition jsAdd (a b : Z) : Z := roundToDouble (a + b).

(** The members that every object inherits from [Object.prototype]: a
    lookup [obj[key]] with one of these names finds the inherited member
    when [obj] has no own property of that name. *)
Definition objectPrototypeKeys : list string :=
  [ "constructor"; "__proto__"; "hasOwnProperty"; "isPrototypeOf";
    "propertyIsEnumerable"; "toLocaleString"; "toString"; "valueOf";
    "__defineGetter__"; "__defineSetter__"; "__lookupGetter__";
    "__lookupSetter__" ].

(** ** [getRequiredPicks] *)

Definition getRequiredPicks (player : Player) (day : string) : nat :=
  if negb (needsBuyback player) then
    if bool_decide (day = "thursday_r1") || bool_decide (day = "friday_r1")
    then 2 else 1
  else if bool_decide (day = "friday_r1") then 4
  else 3.

(** ** [POST /api/picks] *)

(** The body of a pick request, after destructuring. [isBuyback] is only
    tested for truthiness. *)
Record PickRequest := mkPickRequest {
  playerId : Z;
  req_day : string;
  req_picks : list string;
  isBuyback : bool
}.

(** [Object.values(player.picks).flat()]: every team of every recorded pick
    list of the player. *)
Definition usedTeams (player : Player) : list string :=
  mjoin (map_to_list (picks player)).*2.

(** The five checks that precede the buyback block, in program order; each
    [if (...) return] of the handler is one [if ... then inl ...] here.
    [player.picks[day]] is truthy when a list is recorded for the day and
    also when the day is the name of an inherited member.
    [[...new Set(picks)].length] is the size of the set of the candidates. *)
Definition validatePicks (config : Config) (player : Player)
    (day : string) (picks_ : list string) : ApiError + unit :=
  if bool_decide (is_Some (picks player !! day))
     || bool_decide (day ∈ objectPrototypeKeys)
  then inl AlreadySubmitted
  else if bool_decide (size (list_to_set picks_ : gset string) ≠ length picks_)
  then inl DuplicatePick
  else match filter (λ t, t ∈ usedTeams player) picks_ with
  | t :: _ => inl (TeamReused t)
  | [] =>
  match filter (λ t, t ∉ teams config) picks_ with
  | t :: _ => inl (InvalidTeam t)
  | [] =>
  let requiredPicks := getRequiredPicks player day in
  if bool_decide (length picks_ ≠ requiredPicks)
  then inl (WrongPickCount requiredPicks)
  else inr ()
  end end.

(** The four assignments of the buyback block. The block is entered with a
    count below 3, for which the increment is exact from [-2^53] on. *)
Definition buyBack (player : Player) : Player :=
  {| player_id := player_id player;
     name := name player;
     status := alive;
     buybacks := (buybacks player + 1)%Z;
     needsBuyback := false;
     totalSpent := jsAdd (totalSpent player) 25;
     picks := picks player;
     results := results player |}.

(** [if (isBuyback) { ... }]. *)
Definition applyBuyback (config : Config) (player : Player) (day : string)
    (isBuyback : bool) : ApiError + Player :=
  if isBuyback then
    if bool_decide (3 ≤ buybacks player)%Z then inl BuybackLimitReached
    else if bool_decide (day ∉ buybackDays config)
    then inl BuybackNotAllowedToday
    else inr (buyBack player)
  else inr player.

(** [player.picks[day] = picks; player.results[day] = 'pending']. *)
Definition savePicks (player : Player) (day : string) (picks_ : list string)
    : Player :=
  {| player_id := player_id player;
     name := name player;
     status := status player;
     buybacks := buybacks player;
     needsBuyback := needsBuyback player;
     totalSpent := totalSpent player;
     picks := <[day := picks_]> (picks player);
     results := <[day := pending]> (results player) |}.

(** The handler from the [AlreadySubmitted] check to the last assignment:
    the updated player record, or the first error met. *)
Definition submitPick (config : Config) (player : Player) (day : string)
    (picks_ : list string) (isBuyback : bool) : ApiError + Player :=
  match validatePicks config player day picks_ with
  | inl e => inl e
  | inr _ =>
    match applyBuyback config player day isBuyback with
    | inl e => inl e
    | inr player' => inr (savePicks player' day picks_)
    end
  end.

(** The whole handler: the response and the contents of [players.json]
    afterwards. The file is rewritten only on success, with the record found
    by [players.find] replaced by its updated version. *)
Definition post_picks (config : Config) (players : list Player)
    (req : PickRequest) : (ApiError + Player) * list Player :=
  if siteLocked config then (inl SiteLocked, players)
  else if bool_decide (playerId req = 0%Z) || bool_decide (req_day req = "")
          || bool_decide (req_picks req = [])
  then (inl MissingFields, players)
  else match list_find (λ p, player_id p = playerId req) players with
  | None => (inl PlayerNotFound, players)
  | Some (i, player) =>
    match submitPick config player (req_day req) (req_picks req)
            (isBuyback req) with
    | inl e => (inl e, players)
    | inr player' => (inr player', <[i := player']> players)
    end
  end.

(** ** [POST /api/admin/process-day] *)

(** One iteration of the loop that fills [dayWinners]: the test
    [game.final && game.winner] holds for a final game whose winner is a
    non-empty string. *)
Definition addWinner (dayWinners : gset string) (game : Game) : gset string :=
  match winner game with
  | Some w =>
    if final game && negb (bool_decide (w = "")) then {[ w ]} ∪ dayWinners
    else dayWinners
  | None => dayWinners
  end.

Definition dayWinners (dayGames : list Game) : gset string :=
  foldl addWinner ∅ dayGames.

Definition setOutcome (player : Player) (day : string) (r : DayResult)
    (st : Status) (nb : bool) : Player :=
  {| player_id := player_id player;
     name := name player;
     status := st;
     buybacks := buybacks player;
     needsBuyback := nb;
     totalSpent := totalSpent player;
     picks := picks player;
     results := <[day := r]> (results player) |}.

(** The body of the loop over the players. *)
Definition processPlayer (config : Config) (winners : gset string)
    (day : string) (player : Player) : Player :=
  match status player with
  | eliminated => player
  | alive =>
    match picks player !! day with
    | None | Some [] => player
    | Some playerPicks =>
      let allWon := forallb (λ team, bool_decide (team ∈ winners)) playerPicks in
      if allWon then setOutcome player day win alive (needsBuyback player)
      else if bool_decide (day ∈ buybackDays config)
              && bool_decide (buybacks player < 3)%Z
      then setOutcome player day loss eliminated true
      else setOutcome player day loss eliminated false
    end
  end.

(** [DAY_ORDER.indexOf(day)]: the first position of [day], or -1. *)
Fixpoint indexOf (day : string) (l : list string) : Z :=
  match l with
  | [] => -1
  | d :: l' =>
    if bool_decide (d = day) then 0%Z
    else let i := indexOf day l' in
         if bool_decide (i = -1)%Z then (-1)%Z else (i + 1)%Z
  end.

Definition advanceDay (config : Config) (day : string) : Config :=
  let dayIdx := indexOf day DAY_ORDER in
  if bool_decide (0 ≤ dayIdx)%Z
     && bool_decide (dayIdx < Z.of_nat (length DAY_ORDER) - 1)%Z
  then {| teams := teams config;
          buybackDays := buybackDays config;
          currentDay := DAY_ORDER !! Z.to_nat (dayIdx + 1);
          siteLocked := siteLocked config;
          lockMessage := lockMessage config;
          adminPassword := adminPassword config |}
  else config.

(** An entry of the [summary] array of the response;
    [p.results[day] || null] is the stored result, if any. *)
Record SummaryEntry := mkSummaryEntry {
  sum_id : Z;
  sum_name : string;
  sum_status : Status;
  sum_result : option DayResult
}.

Definition summaryEntry (day : string) (p : Player) : SummaryEntry :=
  {| sum_id := player_id p;
     sum_name := name p;
     sum_status := status p;
     sum_result := results p !! day |}.

(** The handler after its two guards: the new config, the new player list
    and the summary. [allGames[day] || []] is the day's game list. The
    three lookups by [day] are lookups of own properties: this is the
    handler on a day that is not in [objectPrototypeKeys]. *)
Definition processDay (config : Config) (players : list Player)
    (allGames : gmap string (list Game)) (day : string)
    : Config * list Player * list SummaryEntry :=
  let dayGames := default [] (allGames !! day) in
  let winners := dayWinners dayGames in
  let players' := map (processPlayer config winners day) players in
  let config' := advanceDay config day in
  (config', players', map (summaryEntry day) players').

(** ** The store and its transitions *)

(** The three JSON files. *)
Record Store := mkStore {
  st_config : Config;
  st_players : list Player;
  st_games : gmap string (list Game)
}.

(** A request to one of the two handlers; [password] is the
    [x-admin-password] header of an admin request. *)
Inductive Request :=
  | PostPicks (req : PickRequest)
  | PostProcessDay (password : option string) (day : string).

(** [isAdminAuthed]. *)
Definition isAdminAuthed (config : Config) (password : option string) : bool :=
  bool_decide (password = Some (adminPassword config)).

(** The whole handler, with its two guards: the response ([currentDay] and
    the summary) and the store afterwards. *)
Definition post_process_day (s : Store) (password : option string)
    (day : string)
    : (ApiError + option string * list SummaryEntry) * Store :=
  if negb (isAdminAuthed (st_config s) password) then (inl Unauthorized, s)
  else if bool_decide (day = "") then (inl MissingDay, s)
  else
    let '(config', players', summary) :=
      processDay (st_config s) (st_players s) (st_games s) day in
    (inr (currentDay config', summary),
     {| st_config := config'; st_players := players';
        st_games := st_games s |}).

(** The store after a request. A request that is refused writes nothing. *)
Definition step (s : Store) (r : Request) : Store :=
  match r with
  | PostPicks req =>
    {| st_config := st_config s;
       st_players := (post_picks (st_config s) (st_players s) req).2;
       st_games := st_games s |}
  | PostProcessDay password day => (post_process_day s password day).2
  end.

Definition run (s : Store) (rs : list Request) : Store := foldl step s rs.

(** The record that [POST /api/admin/player] creates from a body that gives
    only a name. *)
Definition newPlayer (players : list Player) (nm : string) : Player :=
  let maxId :=
    match players with
    | [] => 0%Z
    | p :: ps => foldr Z.max (player_id p) (player_id <$> ps)
    end in
  {| player_id := jsAdd maxId 1;
     name := if bool_decide (nm = "") then "New Player" else nm;
     status := alive;
     buybacks := 0;
     needsBuyback := false;
     totalSpent := 25;
     picks := ∅;
     results := ∅ |}.

(** The three ways in which a request acts on the player at a position. *)
Inductive playerStep (s : Store) (p : Player) : Request → Player → Prop :=
  | ps_same r : playerStep s p r p
  | ps_submit req p' :
      playerId req = player_id p →
      submitPick (st_config s) p (req_day req) (req_picks req) (isBuyback req)
        = inr p' →
      playerStep s p (PostPicks req) p'
  | ps_process password d :
      playerStep s p (PostProcessDay password d)
        (processPlayer (st_config s)
           (dayWinners (default [] (st_games s !! d))) d p).

(** ** The conditions of the specification *)

(** The five conditions of the validation sequence, in the words of the
    specification. *)
Definition alreadySubmitted (p : Player) (d : string) : Prop :=
  is_Some (picks p !! d).
Definition hasDuplicate (l : list string) : Prop := ¬ NoDup l.
(** What the first check of the code tests: the lookup [player.picks[day]]
    finds something, a recorded list or an inherited member. *)
Definition picksFound (p : Player) (d : string) : Prop :=
  alreadySubmitted p d ∨ d ∈ objectPrototypeKeys.
Definition reusesTeam (p : Player) (l : list string) : Prop :=
  ∃ t d' l', t ∈ l ∧ picks p !! d' = Some l' ∧ t ∈ l'.
Definition hasInvalidTeam (c : Config) (l : list string) : Prop :=
  ∃ t, t ∈ l ∧ t ∉ teams c.
Definition wrongCount (p : Player) (d : string) (l : list string) : Prop :=
  length l ≠ getRequiredPicks p d.

(** The winners set in the words of the specification: the teams recorded as
    winner of a game marked final. A recorded winner is a non-empty team
    name. *)
Definition isWinner (games : list Game) (t : string) : Prop :=
  ∃ g, g ∈ games ∧ final g = true ∧ winner g = Some t ∧ t ≠ "".

(** A player is evaluated on a day when alive with a non-empty pick list
    recorded for the day; every other player is skipped. *)
Definition evaluated (p : Player) (d : string) : Prop :=
  status p = alive ∧ ∃ l, picks p !! d = Some l ∧ l ≠ [].


(** ** A small pool

    Two players created through the admin route, one day of games, and a
    configuration in which Friday is the only buyback day. The examples
    below run the handlers on it. *)

Definition ex_config : Config :=
  {| teams := ["Duke"; "UNC"; "Kansas"; "Gonzaga"; "Baylor"; "Houston"];
     buybackDays := ["friday_r1"];
     currentDay := Some "thursday_r1";
     siteLocked := false;
     lockMessage := "";
     adminPassword := "secret" |}.

Definition ann : Player := newPlayer [] "Ann".
Definition bob : Player := newPlayer [ann] "Bob".

Definition ex_games : gmap string (list Game) :=
  {[ "thursday_r1" :=
       [ mkGame "g1" "Duke" "UNC" (Some 70%Z) (Some 61%Z) true (Some "Duke");
         mkGame "g2" "Kansas" "Gonzaga" None None false None;
         mkGame "g3" "Baylor" "Houston" (Some 58%Z) (Some 55%Z) true
           (Some "Baylor") ] ]}.

Definition ex_store : Store := mkStore ex_config [ann; bob] ex_games.

(** Ann after a Thursday submission, and after three buybacks. *)
Definition ann_thursday : Player :=
  savePicks ann "thursday_r1" ["Duke"; "Kansas"].
Definition ann_eliminated : Player :=
  setOutcome ann_thursday "thursday_r1" loss eliminated false.
Definition ann_bought_out : Player := buyBack (buyBack (buyBack ann)).

(** Bob with two winners on Thursday, and with Friday picks only. *)
Definition bob_thursday : Player :=
  savePicks bob "thursday_r1" ["Duke"; "Baylor"].
Definition bob_friday : Player :=
  savePicks bob "friday_r1" ["UNC"; "Gonzaga"].

(** ** The admin routes

    The remaining handlers that write the store. Each one starts with the
    [isAdminAuthed] guard; a request body gives, for each field, either a
    value or nothing (the key is absent). *)

(** The error responses of the admin routes. *)
Inductive AdminError :=
  | NotAuthorized
  | NoSuchPlayer
  | MissingGamesFields
  | MissingResultFields
  | DayNotFound
  | GameNotFound.

(** [POST /api/admin/config]: the body is merged into the configuration,
    except for its [adminPassword]. *)
Record ConfigUpdate := mkConfigUpdate {
  u_teams : option (list string);
  u_buybackDays : option (list string);
  u_currentDay : option string;
  u_siteLocked : option bool;
  u_lockMessage : option string;
  u_adminPassword : option string
}.

(** [Object.assign(config, updates)], [updates] being the body without its
    [adminPassword]. *)
Definition assignConfig (config : Config) (u : ConfigUpdate) : Config :=
  {| teams := default (teams config) (u_teams u);
     buybackDays := default (buybackDays config) (u_buybackDays u);
     currentDay :=
       match u_currentDay u with
       | Some d => Some d
       | None => currentDay config
       end;
     siteLocked := default (siteLocked config) (u_siteLocked u);
     lockMessage := default (lockMessage config) (u_lockMessage u);
     adminPassword := adminPassword config |}.

(** The configuration without its [adminPassword], as the responses show
    it. *)
Record SafeConfig := mkSafeConfig {
  safe_teams : list string;
  safe_buybackDays : list string;
  safe_currentDay : option string;
  safe_siteLocked : bool;
  safe_lockMessage : string
}.

Definition safeConfig (config : Config) : SafeConfig :=
  {| safe_teams := teams config;
     safe_buybackDays := buybackDays config;
     safe_currentDay := currentDay config;
     safe_siteLocked := siteLocked config;
     safe_lockMessage := lockMessage config |}.

Definition post_admin_config (s : Store) (password : option string)
    (u : ConfigUpdate) : (AdminError + SafeConfig) * Store :=
  if negb (isAdminAuthed (st_config s) password) then (inl NotAuthorized, s)
  else
    let config' := assignConfig (st_config s) u in
    (inr (safeConfig config'),
     {| st_config := config'; st_players := st_players s;
        st_games := st_games s |}).

(** [POST /api/admin/player]. *)
Record PlayerBody := mkPlayerBody {
  b_id : option Z;
  b_name : option string;
  b_status : option Status;
  b_buybacks : option Z;
  b_needsBuyback : option bool;
  b_totalSpent : option Z;
  b_picks : option (gmap string (list string));
  b_results : option (gmap string DayResult)
}.

(** [Object.assign({}, players[idx], body)]. *)
Definition mergePlayer (player : Player) (body : PlayerBody) : Player :=
  {| player_id := default (player_id player) (b_id body);
     name := default (name player) (b_name body);
     status := default (status player) (b_status body);
     buybacks := default (buybacks player) (b_buybacks body);
     needsBuyback := default (needsBuyback player) (b_needsBuyback body);
     totalSpent := default (totalSpent player) (b_totalSpent body);
     picks := default (picks player) (b_picks body);
     results := default (results player) (b_results body) |}.

(** [players.length > 0 ? Math.max(...ids) : 0]. *)
Definition maxId (players : list Player) : Z :=
  match players with
  | [] => 0%Z
  | p :: ps => foldr Z.max (player_id p) (player_id <$> ps)
  end.

(** The record of the create branch; [x || d] is [d] for an absent field
    and for the falsy values [0] and [''] as well. *)
Definition createPlayer (players : list Player) (body : PlayerBody) : Player :=
  {| player_id := jsAdd (maxId players) 1;
     name :=
       match b_name body with
       | Some nm => if bool_decide (nm = "") then "New Player" else nm
       | None => "New Player"
       end;
     status := default alive (b_status body);
     buybacks := default 0%Z (b_buybacks body);
     needsBuyback := default false (b_needsBuyback body);
     totalSpent :=
       match b_totalSpent body with
       | Some n => if bool_decide (n = 0%Z) then 25%Z else n
       | None => 25%Z
       end;
     picks := default ∅ (b_picks body);
     results := default ∅ (b_results body) |}.

(** The handler on the player list: the test
    [body.id && players.find(p => p.id === body.id)] selects the update
    branch, which replaces the first record with that id; any other body
    creates a record at the end of the list. *)
Definition upsertPlayer (players : list Player) (body : PlayerBody)
    : Player * list Player :=
  let found :=
    match b_id body with
    | Some id =>
      if bool_decide (id = 0%Z) then None
      else list_find (λ p, player_id p = id) players
    | None => None
    end in
  match found with
  | Some (idx, player) =>
    let player' := mergePlayer player body in
    (player', <[idx := player']> players)
  | None =>
    let player' := createPlayer players body in
    (player', players ++ [player'])
  end.

Definition post_admin_player (s : Store) (password : option string)
    (body : PlayerBody) : (AdminError + Player) * Store :=
  if negb (isAdminAuthed (st_config s) password) then (inl NotAuthorized, s)
  else
    let '(player', players') := upsertPlayer (st_players s) body in
    (inr player',
     {| st_config := st_config s; st_players := players';
        st_games := st_games s |}).

(** [DELETE /api/admin/player/:id], on the parsed id. *)
Definition removePlayer (players : list Player) (id : Z)
    : AdminError + list Player :=
  let filtered := filter (λ p, player_id p ≠ id) players in
  if bool_decide (length filtered = length players) then inl NoSuchPlayer
  else inr filtered.

Definition delete_admin_player (s : Store) (password : option string)
    (id : Z) : (AdminError + unit) * Store :=
  if negb (isAdminAuthed (st_config s) password) then (inl NotAuthorized, s)
  else match removePlayer (st_players s) id with
  | inl e => (inl e, s)
  | inr filtered =>
    (inr (),
     {| st_config := st_config s; st_players := filtered;
        st_games := st_games s |})
  end.

(** [POST /api/admin/games]; [games] is absent when the body carries no
    array. *)
Definition post_admin_games (s : Store) (password : option string)
    (day : string) (games : option (list Game)) : (AdminError + unit) * Store :=
  if negb (isAdminAuthed (st_config s) password) then (inl NotAuthorized, s)
  else match games with
  | Some games_ =>
    if bool_decide (day = "") then (inl MissingGamesFields, s)
    else
      (inr (),
       {| st_config := st_config s; st_players := st_players s;
          st_games := <[day := games_]> (st_games s) |})
  | None => (inl MissingGamesFields, s)
  end.

(** [POST /api/admin/game-result]. A score or a winner of the body may be
    [null], which clears the field. *)
Record ResultBody := mkResultBody {
  r_day : string;
  r_gameId : string;
  r_homeScore : option (option Z);
  r_awayScore : option (option Z);
  r_final : option bool;
  r_winner : option (option string)
}.

(** The four conditional assignments. *)
Definition assignResult (game : Game) (body : ResultBody) : Game :=
  {| game_id := game_id game;
     home := home game;
     away := away game;
     homeScore := default (homeScore game) (r_homeScore body);
     awayScore := default (awayScore game) (r_awayScore body);
     final := default (final game) (r_final body);
     winner := default (winner game) (r_winner body) |}.

(** The handler on the games file. [allGames[day]] is the lookup of an own
    property; for a day in [objectPrototypeKeys] the handler fails on the
    inherited member and, as here, writes nothing. *)
Definition recordResult (allGames : gmap string (list Game))
    (body : ResultBody) : AdminError + Game * gmap string (list Game) :=
  if bool_decide (r_day body = "") || bool_decide (r_gameId body = "")
  then inl MissingResultFields
  else match allGames !! r_day body with
  | None => inl DayNotFound
  | Some dayGames =>
    match list_find (λ g, game_id g = r_gameId body) dayGames with
    | None => inl GameNotFound
    | Some (i, game) =>
      let game' := assignResult game body in
      inr (game', <[r_day body := <[i := game']> dayGames]> allGames)
    end
  end.

Definition post_admin_game_result (s : Store) (password : option string)
    (body : ResultBody) : (AdminError + Game) * Store :=
  if negb (isAdminAuthed (st_config s) password) then (inl NotAuthorized, s)
  else match recordResult (st_games s) body with
  | inl e => (inl e, s)
  | inr (game', allGames') =>
    (inr game',
     {| st_config := st_config s; st_players := st_players s;
        st_games := allGames' |})
  end.

(** ** The whole API *)

(** A call to any of the routes that write the store. *)
Inductive ApiCall :=
  | Engine (r : Request)
  | PostAdminConfig (password : option string) (u : ConfigUpdate)
  | PostAdminPlayer (password : option string) (body : PlayerBody)
  | DeleteAdminPlayer (password : option string) (id : Z)
  | PostAdminGames (password : option string) (day : string)
      (games : option (list Game))
  | PostAdminGameResult (password : option string) (body : ResultBody).

Definition apiStep (s : Store) (call : ApiCall) : Store :=
  match call with
  | Engine r => step s r
  | PostAdminConfig password u => (post_admin_config s password u).2
  | PostAdminPlayer password body => (post_admin_player s password body).2
  | DeleteAdminPlayer password id => (delete_admin_player s password id).2
  | PostAdminGames password day games =>
    (post_admin_games s password day games).2
  | PostAdminGameResult password body =>
    (post_admin_game_result s password body).2
  end.

Definition apiRun (s : Store) (calls : list ApiCall) : Store :=
  foldl apiStep s calls.

(** The password header of a call to an admin route. *)
Definition callPassword (call : ApiCall) : option (option string) :=
  match call with
  | Engine (PostPicks _) => None
  | Engine (PostProcessDay password _)
  | PostAdminConfig password _
  | PostAdminPlayer password _
  | DeleteAdminPlayer password _
  | PostAdminGames password _ _
  | PostAdminGameResult password _ => Some password
  end.

(** ** Conditions on players and stores *)

(** No team occurs twice among the recorded picks of a player: neither
    within a day's list nor in the lists of two days. *)
Definition picksDistinct (p : Player) : Prop :=
  (∀ d l, picks p !! d = Some l → NoDup l) ∧
  (∀ d1 d2 l1 l2 t,
     picks p !! d1 = Some l1 → picks p !! d2 = Some l2 →
     t ∈ l1 → t ∈ l2 → d1 = d2).

(** The ids of the stored players are pairwise different. *)
Definition uniqueIds (players : list Player) : Prop :=
  NoDup (player_id <$> players).

(** [currentDay] is unset or a day of the calendar. *)
Definition currentDayValid (c : Config) : Prop :=
  ∀ d, currentDay c = Some d → d ∈ DAY_ORDER.

(** Every pick list recorded for [p] is recorded, unaltered, for [p']. *)
Definition picksKept (p p' : Player) : Prop :=
  ∀ d l, picks p !! d = Some l → picks p' !! d = Some l.

(** The stored ids are at least [-2^53] and leave room for [k] further ids
    below [2^53]. *)
Definition idsWithin (k : Z) (players : list Player) : Prop :=
  (0 ≤ k ≤ maxExact)%Z ∧
  Forall (λ id, (- maxExact ≤ id ≤ maxExact - k)%Z) (player_id <$> players).


(** The result of the second Thursday game, as posted, and the games file
    after the post. *)
Definition ex_result : ResultBody :=
  mkResultBody "thursday_r1" "g2" (Some (Some 80%Z)) (Some (Some 75%Z))
    (Some true) (Some (Some "Kansas")).

Definition ex_games_after : gmap string (list Game) :=
  {[ "thursday_r1" :=
       [ mkGame "g1" "Duke" "UNC" (Some 70%Z) (Some 61%Z) true (Some "Duke");
         mkGame "g2" "Kansas" "Gonzaga" (Some 80%Z) (Some 75%Z) true
           (Some "Kansas");
         mkGame "g3" "Baylor" "Houston" (Some 58%Z) (Some 55%Z) true
           (Some "Baylor") ] ]}.

(** Out for good: eliminated with no buyback left. *)
Definition outForGood (p : Player) : Prop :=
  status p = eliminated ∧ (3 ≤ buybacks p)%Z.

(** The needs-buyback flag, when set, marks an eliminated player who has a
    buyback left. *)
Definition flagMeansBuyback (p : Player) : Prop :=
  needsBuyback p = true → status p = eliminated ∧ (buybacks p < 3)%Z.

(** Ann eliminated on Thursday after three buybacks. *)
Definition ann_gone : Player :=
  setOutcome (savePicks ann_bought_out "thursday_r1" ["Duke"; "Kansas"])
    "thursday_r1" loss eliminated false.


(** ** Properties *)

(** Closed facts about the small pool are settled by evaluation. *)
Ltac by_evaluation :=
  lazymatch goal with
  | |- _ = _ => vm_compute; reflexivity
  | |- _ => apply (bool_decide_unpack _); vm_compute; exact I
  end.

(** The first two days of [DAY_ORDER] are the two round-of-64 days and the
    second one is Friday. *)
Lemma first_two_days (day : string) :
  day ∈ take 2 DAY_ORDER ↔ day = "thursday_r1" ∨ day = "friday_r1".
Proof. simpl. rewrite !elem_of_cons, elem_of_nil. intuition. Qed.

Lemma second_day (day : string) :
  DAY_ORDER !! 1 = Some day ↔ day = "friday_r1".
Proof. simpl. split; [by intros [= <-]|by intros ->]. Qed.

(** C3: [requiredPickCount] is 2 on the first two days of the sequence
    (['thursday_r1'], ['friday_r1']) and 1 on any other day for a player whose
    [needsBuyback] flag is false; it is 4 on the second day (['friday_r1'])
    and 3 on any other day for a player whose flag is true. *)
Theorem getRequiredPicks_table (player : Player) (day : string) :
  (needsBuyback player = false → day ∈ take 2 DAY_ORDER →
     getRequiredPicks player day = 2) ∧
  (needsBuyback player = false → day ∉ take 2 DAY_ORDER →
     getRequiredPicks player day = 1) ∧
  (needsBuyback player = true → DAY_ORDER !! 1 = Some day →
     getRequiredPicks player day = 4) ∧
  (needsBuyback player = true → DAY_ORDER !! 1 ≠ Some day →
     getRequiredPicks player day = 3).
Proof.
  unfold getRequiredPicks.
  rewrite first_two_days, second_day.
  destruct (needsBuyback player); simpl;
    repeat case_bool_decide; simpl; intuition congruence.
Qed.

Lemma getRequiredPicks_table_witness :
  getRequiredPicks ann "friday_r1" = 2 ∧
  getRequiredPicks ann "saturday_e8" = 1 ∧
  getRequiredPicks (setOutcome ann "thursday_r1" loss eliminated true)
    "friday_r1" = 4 ∧
  getRequiredPicks (setOutcome ann "thursday_r1" loss eliminated true)
    "thursday_r1" = 3.
Proof.
  split_and!.
  - apply (getRequiredPicks_table ann "friday_r1"); by_evaluation.
  - apply (getRequiredPicks_table ann "saturday_e8"); by_evaluation.
  - apply (getRequiredPicks_table
             (setOutcome ann "thursday_r1" loss eliminated true) "friday_r1");
      by_evaluation.
  - apply (getRequiredPicks_table
             (setOutcome ann "thursday_r1" loss eliminated true) "thursday_r1");
      by_evaluation.
Defined.

(** ** The checks of [validatePicks], as properties of the data *)

(** Adding an element to a set of strings: the size grows by one unless the
    element is already there. *)
Lemma size_add (x : string) (X : gset string) :
  size ({[x]} ∪ X) = if decide (x ∈ X) then size X else S (size X).
Proof.
  case_decide as Hx.
  - f_equal. apply subseteq_union_1_L. by apply singleton_subseteq_l.
  - rewrite size_union, size_singleton; [done|].
    by apply disjoint_singleton_l.
Qed.

Lemma size_list_to_set_le (l : list string) :
  size (list_to_set l : gset string) ≤ length l.
Proof.
  induction l as [|x l IH]; [done|].
  rewrite list_to_set_cons, length_cons, size_add.
  case_decide; lia.
Qed.

(** The set of the candidates is as large as their list exactly when the
    list has no repetition. *)
Lemma set_size_NoDup (l : list string) :
  size (list_to_set l : gset string) = length l ↔ NoDup l.
Proof.
  split; [|apply size_list_to_set].
  induction l as [|x l IH]; [constructor|].
  rewrite list_to_set_cons, length_cons, size_add.
  pose proof (size_list_to_set_le l) as Hle.
  case_decide as Hx; intros Hsz; [lia|].
  rewrite elem_of_list_to_set in Hx.
  constructor; [done|]. apply IH. lia.
Qed.

(** A used team is a team of one of the recorded pick lists. *)
Lemma elem_of_usedTeams (p : Player) (t : string) :
  t ∈ usedTeams p ↔ ∃ d l, picks p !! d = Some l ∧ t ∈ l.
Proof.
  unfold usedTeams. rewrite list_elem_of_join. split.
  - intros (l & Ht & Hl). apply list_elem_of_fmap in Hl as ([d l'] & -> & Hdl).
    apply elem_of_map_to_list in Hdl. eauto.
  - intros (d & l & Hdl & Ht). exists l. split; [done|].
    apply list_elem_of_fmap. exists (d, l). split; [done|].
    by apply elem_of_map_to_list.
Qed.

(** [xs.filter(f)] is empty exactly when no element passes, and its head,
    when there is one, is an element that passes. *)
Lemma filter_empty_iff {A} (P : A → Prop) `{!∀ x, Decision (P x)}
    (xs : list A) :
  filter P xs = [] ↔ ∀ x, x ∈ xs → ¬ P x.
Proof.
  split.
  - intros Hnil x Hx HP. by eapply filter_nil_not_elem_of.
  - intros Hall. destruct (filter P xs) as [|x ys] eqn:Hf; [done|].
    assert (x ∈ filter P xs) as [HP Hx]%list_elem_of_filter
      by (rewrite Hf; left).
    by destruct (Hall x).
Qed.

Lemma filter_head {A} (P : A → Prop) `{!∀ x, Decision (P x)}
    (xs ys : list A) (x : A) :
  filter P xs = x :: ys → P x ∧ x ∈ xs.
Proof.
  intros Hf. apply (list_elem_of_filter P). rewrite Hf. left.
Qed.

(** The first check in terms of [picksFound]. *)
Lemma found_check (p : Player) (d : string) :
  bool_decide (is_Some (picks p !! d)) || bool_decide (d ∈ objectPrototypeKeys)
    = bool_decide (picksFound p d).
Proof.
  unfold picksFound, alreadySubmitted.
  repeat case_bool_decide; simpl; tauto.
Qed.

(** [validatePicks] passes exactly when the lookup finds nothing and none of
    the four other conditions holds. *)
Lemma validatePicks_ok (c : Config) (p : Player) (d : string)
    (l : list string) :
  validatePicks c p d l = inr () ↔
    ¬ picksFound p d ∧ ¬ hasDuplicate l ∧ ¬ reusesTeam p l ∧
    ¬ hasInvalidTeam c l ∧ ¬ wrongCount p d l.
Proof.
  unfold validatePicks. rewrite found_check.
  unfold hasDuplicate, reusesTeam, hasInvalidTeam, wrongCount.
  case_bool_decide as Hsub; [intuition discriminate|].
  case_bool_decide as Hdup.
  { rewrite set_size_NoDup in Hdup. intuition discriminate. }
  rewrite set_size_NoDup in Hdup.
  destruct (filter _ l) as [|t ts] eqn:Hused.
  2:{ apply filter_head in Hused as [(d' & l' & ? & ?)%elem_of_usedTeams ?].
      split; [discriminate|]. intros (_ & _ & Hre & _). destruct Hre. eauto 7. }
  rewrite filter_empty_iff in Hused.
  destruct (filter _ l) as [|t ts] eqn:Hinv.
  2:{ apply filter_head in Hinv as [? ?].
      split; [discriminate|]. intros (_ & _ & _ & Hi & _). destruct Hi. eauto. }
  rewrite filter_empty_iff in Hinv.
  assert (¬ (∃ t d' l', t ∈ l ∧ picks p !! d' = Some l' ∧ t ∈ l')) as Hre.
  { intros (t & d' & l' & Ht & Hd' & Ht'). apply (Hused t Ht).
    apply elem_of_usedTeams. eauto. }
  assert (¬ (∃ t, t ∈ l ∧ t ∉ teams c)) as Hiv.
  { intros (t & Ht & Hn). by apply (Hinv t Ht). }
  simpl. case_bool_decide as Hcnt; [intuition discriminate|].
  intuition.
Qed.

(** The five conditions are decidable. *)
#[global] Instance alreadySubmitted_dec p d : Decision (alreadySubmitted p d).
Proof. unfold alreadySubmitted. apply _. Defined.
#[global] Instance picksFound_dec p d : Decision (picksFound p d).
Proof. unfold picksFound. apply _. Defined.
#[global] Instance hasDuplicate_dec l : Decision (hasDuplicate l).
Proof. unfold hasDuplicate. apply _. Defined.
#[global] Instance reusesTeam_dec p l : Decision (reusesTeam p l).
Proof.
  destruct (decide (Exists (λ t, t ∈ usedTeams p) l)) as [Hex|Hex];
    [left|right].
  - apply Exists_exists in Hex as (t & Ht & Hu).
    apply elem_of_usedTeams in Hu as (d & l' & Hd & Hl').
    by exists t, d, l'.
  - intros (t & d & l' & Ht & Hd & Hl'). apply Hex, Exists_exists.
    exists t. split; [done|]. apply elem_of_usedTeams. eauto.
Defined.
#[global] Instance hasInvalidTeam_dec c l : Decision (hasInvalidTeam c l).
Proof.
  destruct (decide (Exists (λ t, t ∉ teams c) l)) as [Hex|Hex];
    [left|right].
  - apply Exists_exists in Hex as (t & Ht & Hn). by exists t.
  - intros (t & Ht & Hn). apply Hex, Exists_exists. by exists t.
Defined.
#[global] Instance wrongCount_dec p d l : Decision (wrongCount p d l).
Proof. unfold wrongCount. apply _. Defined.

(** So are membership in the winners set and being evaluated. *)
#[global] Instance isWinner_dec games t : Decision (isWinner games t).
Proof.
  destruct (decide (Exists
    (λ g, final g = true ∧ winner g = Some t ∧ t ≠ "") games)) as [Hex|Hex];
    [left|right].
  - apply Exists_exists in Hex as (g & Hg & Hfin & Hw & Hne). by exists g.
  - intros (g & Hg & Hfin & Hw & Hne). apply Hex, Exists_exists. by exists g.
Defined.
#[global] Instance evaluated_dec p d : Decision (evaluated p d).
Proof.
  unfold evaluated.
  destruct (picks p !! d) as [[|t l]|]; [right|idtac|right].
  - intros [_ (l & [= <-] & Hne)]. done.
  - destruct (decide (status p = alive)); [left|right]; [eauto|tauto].
  - intros [_ (l & [=] & _)].
Defined.

(** ** Pick submission *)

Lemma duplicate_check_false (l : list string) :
  ¬ hasDuplicate l →
  bool_decide (size (list_to_set l : gset string) ≠ length l) = false.
Proof.
  intros Hdup. apply bool_decide_eq_false_2. intros Hne.
  apply Hne, set_size_NoDup. apply dec_stable, Hdup.
Qed.

(** Once the request is well formed and the player is found, the response
    and the store are those of [submitPick]. *)
Lemma post_picks_found (c : Config) (players : list Player)
    (req : PickRequest) (i : nat) (p : Player) :
  siteLocked c = false → playerId req ≠ 0%Z → req_day req ≠ "" →
  req_picks req ≠ [] →
  list_find (λ q, player_id q = playerId req) players = Some (i, p) →
  post_picks c players req =
    match submitPick c p (req_day req) (req_picks req) (isBuyback req) with
    | inl e => (inl e, players)
    | inr p' => (inr p', <[i := p']> players)
    end.
Proof.
  intros Hlock Hid Hday Hpicks Hfind. unfold post_picks.
  rewrite Hlock, Hfind.
  by rewrite !bool_decide_eq_false_2.
Qed.

(** A request that is refused leaves the store as it was. *)
Lemma post_picks_error (c : Config) (players : list Player)
    (req : PickRequest) (e : ApiError) :
  (post_picks c players req).1 = inl e → (post_picks c players req).2 = players.
Proof.
  unfold post_picks. destruct (siteLocked c); [done|].
  destruct (_ || _); [done|].
  destruct (list_find _ players) as [[i p]|]; [|done].
  by destruct (submitPick _ _ _ _ _).
Qed.

(** The first check. *)
Lemma validation_order_found (c : Config) (p : Player) (d : string)
    (l : list string) (b : bool) :
  picksFound p d → submitPick c p d l b = inl AlreadySubmitted.
Proof.
  intros Hsub. unfold submitPick, validatePicks.
  by rewrite found_check, bool_decide_eq_true_2.
Qed.

Lemma validation_order_first (c : Config) (p : Player) (d : string)
    (l : list string) (b : bool) :
  alreadySubmitted p d → submitPick c p d l b = inl AlreadySubmitted.
Proof. intros Hsub. apply validation_order_found. by left. Qed.

(** The order of the checks as the code has it: the lookup
    [player.picks[day]] first, then the duplicate, reuse, roster and count
    checks, and only when all five pass the buyback checks. *)
Lemma validation_order (c : Config) (p : Player) (d : string)
    (l : list string) (b : bool) :
  (picksFound p d → submitPick c p d l b = inl AlreadySubmitted) ∧
  (¬ picksFound p d → hasDuplicate l →
     submitPick c p d l b = inl DuplicatePick) ∧
  (¬ picksFound p d → ¬ hasDuplicate l → reusesTeam p l →
     ∃ t, submitPick c p d l b = inl (TeamReused t)) ∧
  (¬ picksFound p d → ¬ hasDuplicate l → ¬ reusesTeam p l →
     hasInvalidTeam c l →
     ∃ t, submitPick c p d l b = inl (InvalidTeam t)) ∧
  (¬ picksFound p d → ¬ hasDuplicate l → ¬ reusesTeam p l →
     ¬ hasInvalidTeam c l → wrongCount p d l →
     submitPick c p d l b = inl (WrongPickCount (getRequiredPicks p d))) ∧
  (¬ picksFound p d → ¬ hasDuplicate l → ¬ reusesTeam p l →
     ¬ hasInvalidTeam c l → ¬ wrongCount p d l →
     submitPick c p d l b = inl BuybackLimitReached ∨
     submitPick c p d l b = inl BuybackNotAllowedToday ∨
     ∃ p', submitPick c p d l b = inr p').
Proof.
  split_and!.
  - apply validation_order_found.
  - intros Hsub Hdup. unfold submitPick, validatePicks.
    rewrite found_check, bool_decide_eq_false_2 by done.
    rewrite bool_decide_eq_true_2; [done|].
    by rewrite set_size_NoDup.
  - intros Hsub Hdup (t & d' & l' & Ht & Hd' & Ht').
    unfold submitPick, validatePicks.
    rewrite found_check, bool_decide_eq_false_2 by done.
    rewrite duplicate_check_false by done.
    destruct (filter _ l) as [|u us] eqn:Hused; [|eauto].
    rewrite filter_empty_iff in Hused. destruct (Hused t Ht).
    apply elem_of_usedTeams. eauto.
  - intros Hsub Hdup Hre (t & Ht & Hinv).
    unfold submitPick, validatePicks.
    rewrite found_check, bool_decide_eq_false_2 by done.
    rewrite duplicate_check_false by done.
    destruct (filter _ l) as [|u us] eqn:Hused.
    2:{ apply filter_head in Hused as [(d' & l' & ? & ?)%elem_of_usedTeams ?].
        destruct Hre. unfold reusesTeam. eauto 7. }
    clear Hused.
    destruct (filter _ l) as [|u us] eqn:Hbad; [|eauto].
    rewrite filter_empty_iff in Hbad. by destruct (Hbad t Ht Hinv).
  - intros Hsub Hdup Hre Hinv Hcnt.
    unfold submitPick, validatePicks.
    rewrite found_check, bool_decide_eq_false_2 by done.
    rewrite duplicate_check_false by done.
    destruct (filter _ l) as [|u us] eqn:Hused.
    2:{ apply filter_head in Hused as [(d' & l' & ? & ?)%elem_of_usedTeams ?].
        destruct Hre. unfold reusesTeam. eauto 7. }
    clear Hused.
    destruct (filter _ l) as [|u us] eqn:Hbad.
    2:{ apply filter_head in Hbad as [? ?]. destruct Hinv.
        unfold hasInvalidTeam. eauto. }
    simpl. by rewrite bool_decide_eq_true_2.
  - intros Hsub Hdup Hre Hinv Hcnt.
    assert (validatePicks c p d l = inr ()) as Hok
      by (by apply validatePicks_ok).
    unfold submitPick. rewrite Hok. unfold applyBuyback.
    destruct b; [|eauto].
    repeat case_bool_decide; eauto.
Qed.

Lemma validation_order_witness :
  submitPick ex_config ann_thursday "thursday_r1" ["Baylor"; "Houston"] false
    = inl AlreadySubmitted ∧
  submitPick ex_config ann "thursday_r1" ["Duke"; "Duke"] false
    = inl DuplicatePick ∧
  (∃ t, submitPick ex_config ann_thursday "friday_r1" ["Kansas"; "Duke"] false
    = inl (TeamReused t)) ∧
  (∃ t, submitPick ex_config ann "thursday_r1" ["Duke"; "Yale"] false
    = inl (InvalidTeam t)) ∧
  submitPick ex_config ann "thursday_r1" ["Duke"] false
    = inl (WrongPickCount (getRequiredPicks ann "thursday_r1")) ∧
  (submitPick ex_config ann "thursday_r1" ["Duke"; "Kansas"] true
     = inl BuybackLimitReached ∨
   submitPick ex_config ann "thursday_r1" ["Duke"; "Kansas"] true
     = inl BuybackNotAllowedToday ∨
   ∃ p', submitPick ex_config ann "thursday_r1" ["Duke"; "Kansas"] true = inr p').
Proof.
  split_and!.
  - apply (validation_order ex_config ann_thursday "thursday_r1"
             ["Baylor"; "Houston"] false); by_evaluation.
  - apply (validation_order ex_config ann "thursday_r1"
             ["Duke"; "Duke"] false); by_evaluation.
  - apply (validation_order ex_config ann_thursday "friday_r1"
             ["Kansas"; "Duke"] false); by_evaluation.
  - apply (validation_order ex_config ann "thursday_r1"
             ["Duke"; "Yale"] false); by_evaluation.
  - apply (validation_order ex_config ann "thursday_r1"
             ["Duke"] false); by_evaluation.
  - apply (validation_order ex_config ann "thursday_r1"
             ["Duke"; "Kansas"] true); by_evaluation.
Defined.

(** The buyback block on its own: at three buybacks or more it refuses, on a
    day that is not a buyback day it refuses, and otherwise it returns
    [buyBack]. *)
Lemma applyBuyback_cases (c : Config) (p : Player) (d : string) :
  applyBuyback c p d true =
    if decide (3 ≤ buybacks p)%Z then inl BuybackLimitReached
    else if decide (d ∈ buybackDays c) then inr (buyBack p)
    else inl BuybackNotAllowedToday.
Proof.
  unfold applyBuyback. repeat case_bool_decide; repeat case_decide; done.
Qed.

(** C2: the code does not keep to the order at a day that is the name of
    an inherited member, such as ['constructor']: no pick list is recorded
    for that day and the candidates repeat a team, yet the answer is
    [AlreadySubmitted] and not [DuplicatePick], the lookup
    [player.picks[day]] finding the inherited member. *)
Theorem inherited_day_reported_submitted :
  picks ann !! "constructor" = None ∧
  hasDuplicate ["Duke"; "Duke"] ∧
  submitPick ex_config ann "constructor" ["Duke"; "Duke"] false
    = inl AlreadySubmitted ∧
  post_picks ex_config [ann; bob]
    (mkPickRequest 1 "constructor" ["Duke"; "Duke"] false)
    = (inl AlreadySubmitted, [ann; bob]).
Proof. split_and!; by_evaluation. Qed.

(** Up to [2^53] in magnitude an addition is exact. *)
Lemma jsAdd_exact (a b : Z) :
  (Z.abs (a + b) ≤ maxExact)%Z → jsAdd a b = (a + b)%Z.
Proof.
  intros Hle. unfold jsAdd, roundToDouble. by rewrite bool_decide_eq_true_2.
Qed.

(** Beyond it, it is not: from a spend of [2^53] a buyback adds 24. *)
Lemma jsAdd_rounds : jsAdd maxExact 25 = (maxExact + 24)%Z.
Proof. reflexivity. Qed.




(** C6: when the player found already has a pick list recorded for the
    target day, the submission fails with [AlreadySubmitted], buyback or
    not, and the stored players (status, buyback count, spend, flag, pick
    lists and results of every one of them) are left as they were. *)
Theorem resubmission_rejected (c : Config) (players : list Player)
    (req : PickRequest) (i : nat) (p : Player) :
  list_find (λ q, player_id q = playerId req) players = Some (i, p) →
  alreadySubmitted p (req_day req) →
  submitPick c p (req_day req) (req_picks req) (isBuyback req)
    = inl AlreadySubmitted ∧
  (∃ e, post_picks c players req = (inl e, players)) ∧
  (siteLocked c = false → playerId req ≠ 0%Z → req_day req ≠ "" →
   req_picks req ≠ [] →
   post_picks c players req = (inl AlreadySubmitted, players)).
Proof.
  intros Hfind Hsub.
  assert (submitPick c p (req_day req) (req_picks req) (isBuyback req)
            = inl AlreadySubmitted) as Hcore
    by (by apply validation_order_first).
  split_and!; [done| |].
  - unfold post_picks. destruct (siteLocked c); [eauto|].
    destruct (_ || _); [eauto|]. rewrite Hfind, Hcore. eauto.
  - intros. by rewrite (post_picks_found c players req i p), Hcore.
Qed.

Lemma resubmission_rejected_witness :
  let req := mkPickRequest 1 "thursday_r1" ["Baylor"; "Houston"] true in
  submitPick ex_config ann_thursday "thursday_r1" ["Baylor"; "Houston"] true
    = inl AlreadySubmitted ∧
  post_picks ex_config [ann_thursday; bob] req
    = (inl AlreadySubmitted, [ann_thursday; bob]).
Proof.
  split;
    apply (resubmission_rejected ex_config [ann_thursday; bob]
             (mkPickRequest 1 "thursday_r1" ["Baylor"; "Houston"] true)
             0 ann_thursday); by_evaluation.
Defined.

(** [validatePicks] reads the pick lists and the needs-buyback flag of the
    player and nothing else; in particular not the status. *)
Lemma validatePicks_reads (c : Config) (p q : Player) (d : string)
    (l : list string) :
  picks p = picks q → needsBuyback p = needsBuyback q →
  validatePicks c p d l = validatePicks c q d l.
Proof.
  intros Hpicks Hflag.
  unfold validatePicks, usedTeams, getRequiredPicks.
  by rewrite Hpicks, Hflag.
Qed.

(** C10: the submission of an eliminated player is not refused for that
    reason. A submission of such a player that is not marked as a buyback
    and passes every check is accepted: the pick list is recorded under the
    target day with result [pending], and the player stays eliminated with
    the same buyback count, spend and needs-buyback flag. *)
Theorem eliminated_player_may_submit (c : Config) (players : list Player)
    (req : PickRequest) (i : nat) (p : Player) :
  siteLocked c = false → playerId req ≠ 0%Z → req_day req ≠ "" →
  req_picks req ≠ [] →
  list_find (λ q, player_id q = playerId req) players = Some (i, p) →
  status p = eliminated →
  isBuyback req = false →
  validatePicks c p (req_day req) (req_picks req) = inr () →
  ∃ p', post_picks c players req = (inr p', <[i := p']> players) ∧
    <[i := p']> players !! i = Some p' ∧
    picks p' !! req_day req = Some (req_picks req) ∧
    results p' !! req_day req = Some pending ∧
    status p' = eliminated ∧
    buybacks p' = buybacks p ∧
    totalSpent p' = totalSpent p ∧
    needsBuyback p' = needsBuyback p.
Proof.
  intros Hlock Hid Hday Hpicks Hfind Hst Hbb Hok.
  exists (savePicks p (req_day req) (req_picks req)).
  rewrite (post_picks_found c players req i p) by done.
  unfold submitPick. rewrite Hok, Hbb. simpl.
  apply list_find_Some in Hfind as (Hi & _ & _).
  split_and!; try done.
  - apply list_lookup_insert_eq. by eapply lookup_lt_Some.
  - apply lookup_insert_eq.
  - apply lookup_insert_eq.
Qed.

Lemma eliminated_player_may_submit_witness :
  let req := mkPickRequest 1 "friday_r1" ["Baylor"; "Houston"] false in
  ∃ p', post_picks ex_config [ann_eliminated; bob] req
          = (inr p', <[0 := p']> [ann_eliminated; bob]) ∧
    <[0 := p']> [ann_eliminated; bob] !! 0 = Some p' ∧
    picks p' !! req_day req = Some (req_picks req) ∧
    results p' !! req_day req = Some pending ∧
    status p' = eliminated ∧
    buybacks p' = buybacks ann_eliminated ∧
    totalSpent p' = totalSpent ann_eliminated ∧
    needsBuyback p' = needsBuyback ann_eliminated.
Proof.
  apply (eliminated_player_may_submit ex_config [ann_eliminated; bob]
           (mkPickRequest 1 "friday_r1" ["Baylor"; "Houston"] false)
           0 ann_eliminated); by_evaluation.
Defined.

(** ** Day processing *)

(** The winners of a day are the winners of its final games. *)
Lemma elem_of_foldl_addWinner (games : list Game) (acc : gset string)
    (t : string) :
  t ∈ foldl addWinner acc games ↔ t ∈ acc ∨ isWinner games t.
Proof.
  revert acc. induction games as [|g games IH]; intros acc; simpl.
  - unfold isWinner. split; [auto|]. intros [?|(g & Hg & _)]; [done|].
    by apply elem_of_nil in Hg.
  - rewrite IH. unfold isWinner, addWinner. split.
    + intros [Hacc|(g' & Hg' & ?)].
      * destruct (winner g) as [w|] eqn:Hw; [|auto].
        destruct (final g) eqn:Hfin; simpl in Hacc; [|auto].
        case_bool_decide as Hne; simpl in Hacc; [auto|].
        apply elem_of_union in Hacc as [->%elem_of_singleton|?]; [|auto].
        right. exists g. split_and!; [left|done..].
      * right. exists g'. split; [by right|done].
    + intros [Hacc|(g' & Hg' & Hfin & Hw & Hne)].
      * left. destruct (winner g); [|done].
        destruct (_ && _); [|done]. apply elem_of_union. by right.
      * apply elem_of_cons in Hg' as [->|Hg'].
        -- left. rewrite Hw, Hfin. simpl.
           rewrite bool_decide_eq_false_2 by done.
           apply elem_of_union. left. by apply elem_of_singleton.
        -- right. eauto.
Qed.

Lemma elem_of_dayWinners (games : list Game) (t : string) :
  t ∈ dayWinners games ↔ isWinner games t.
Proof.
  unfold dayWinners. rewrite elem_of_foldl_addWinner.
  split; [intros [Hin|?]; [by apply not_elem_of_empty in Hin|done]|by right].
Qed.

(** [playerPicks.every(...)] holds when every pick is a winner. *)
Lemma allWon_iff (games : list Game) (l : list string) :
  forallb (λ team, bool_decide (team ∈ dayWinners games)) l = true ↔
  ∀ t, t ∈ l → isWinner games t.
Proof.
  rewrite <- Is_true_true, forallb_True, Forall_forall.
  apply forall_proper. intros t.
  by rewrite bool_decide_spec, elem_of_dayWinners.
Qed.

(** The player list keeps its positions: the player at a position after
    processing is the processed player of that position. *)
Lemma processDay_lookup (c : Config) (players : list Player)
    (allGames : gmap string (list Game)) (d : string) (j : nat) :
  (processDay c players allGames d).1.2 !! j =
    processPlayer c (dayWinners (default [] (allGames !! d))) d
      <$> players !! j.
Proof. unfold processDay. simpl. apply list_lookup_fmap. Qed.



(** [indexOf] on the calendar. *)
Lemma indexOf_DAY_ORDER (i : nat) (d : string) :
  DAY_ORDER !! i = Some d → indexOf d DAY_ORDER = Z.of_nat i.
Proof.
  intros Hi.
  do 10 (destruct i as [|i]; [injection Hi as <-; vm_compute; reflexivity|]).
  done.
Qed.

(** C5: processing a day of the ten-day sequence sets [currentDay] to the
    next day of the sequence, except for the last day, ['monday_champ'],
    whose processing leaves [currentDay] (and the whole configuration)
    unchanged. *)
Theorem processDay_advances (c : Config) (players : list Player)
    (allGames : gmap string (list Game)) (i : nat) (d : string) :
  DAY_ORDER !! i = Some d →
  let c' := (processDay c players allGames d).1.1 in
  (d ≠ "monday_champ" →
     ∃ next, DAY_ORDER !! S i = Some next ∧ currentDay c' = Some next) ∧
  (d = "monday_champ" → currentDay c' = currentDay c ∧ c' = c).
Proof.
  intros Hi. simpl. unfold advanceDay.
  rewrite (indexOf_DAY_ORDER i d Hi).
  do 9 (destruct i as [|i];
    [injection Hi as <-; split;
       [intros _; eexists; split; reflexivity|intros [=]]|]).
  destruct i as [|i]; [|done].
  injection Hi as <-. split; [done|]. intros _. split; reflexivity.
Qed.

Lemma processDay_advances_witness :
  (∃ next, DAY_ORDER !! 4 = Some next ∧
     currentDay (processDay ex_config [ann; bob] ex_games "sunday_r2").1.1
       = Some next) ∧
  currentDay (processDay ex_config [ann; bob] ex_games "monday_champ").1.1
    = currentDay ex_config.
Proof.
  split.
  - apply (processDay_advances ex_config [ann; bob] ex_games 3 "sunday_r2");
      by_evaluation.
  - apply (processDay_advances ex_config [ann; bob] ex_games 9 "monday_champ");
      by_evaluation.
Defined.

(** A skipped player is returned as it is; an evaluated one gets a fresh
    result, [win] or [loss], and keeps its identity. *)
Lemma processPlayer_skipped (c : Config) (w : gset string) (d : string)
    (p : Player) :
  ¬ evaluated p d → processPlayer c w d p = p.
Proof.
  unfold evaluated, processPlayer. intros Hskip.
  destruct (status p); [|done].
  destruct (picks p !! d) as [[|t l]|]; [done| |done].
  destruct Hskip. eauto.
Qed.

Lemma processPlayer_evaluated (c : Config) (w : gset string) (d : string)
    (p : Player) :
  evaluated p d →
  results (processPlayer c w d p) !! d = Some win ∨
  results (processPlayer c w d p) !! d = Some loss.
Proof.
  unfold evaluated, processPlayer. intros [-> (l & -> & Hne)].
  destruct l as [|t l]; [done|].
  destruct (forallb _ _); [left; apply lookup_insert_eq|].
  destruct (_ && _); right; apply lookup_insert_eq.
Qed.

Lemma processPlayer_identity (c : Config) (w : gset string) (d : string)
    (p : Player) :
  player_id (processPlayer c w d p) = player_id p ∧
  name (processPlayer c w d p) = name p ∧
  buybacks (processPlayer c w d p) = buybacks p ∧
  totalSpent (processPlayer c w d p) = totalSpent p ∧
  picks (processPlayer c w d p) = picks p.
Proof.
  unfold processPlayer. destruct (status p); [|done].
  destruct (picks p !! d) as [[|t l]|]; [done| |done].
  destruct (forallb _ _); [done|]. by destruct (_ && _).
Qed.

(** C9 (as amended): for a day that is not the name of an inherited member
    (with such a name the lookups of the handler find the member instead of
    the data of the day), the summary has one entry per player of the list,
    in the order of the list, with the player's id, name and status after
    processing; its result field is the result stored for the day after
    processing: the fresh [win] or [loss] of an evaluated player, and for a
    skipped player whatever was stored before, which is none only when
    nothing was stored. *)
Theorem processDay_summary (c : Config) (players : list Player)
    (allGames : gmap string (list Game)) (d : string) :
  d ∉ objectPrototypeKeys →
  let players' := (processDay c players allGames d).1.2 in
  let summary := (processDay c players allGames d).2 in
  length summary = length players ∧
  ∀ j p, players !! j = Some p →
    ∃ p' e, players' !! j = Some p' ∧ summary !! j = Some e ∧
      sum_id e = player_id p ∧ sum_name e = name p ∧
      sum_status e = status p' ∧
      sum_result e = results p' !! d ∧
      (evaluated p d → sum_result e = Some win ∨ sum_result e = Some loss) ∧
      (¬ evaluated p d → p' = p ∧ sum_result e = results p !! d).
Proof.
  intros _. simpl. split; [by rewrite !length_fmap|].
  intros j p Hj.
  set (w := dayWinners (default [] (allGames !! d))).
  exists (processPlayer c w d p), (summaryEntry d (processPlayer c w d p)).
  rewrite !list_lookup_fmap, Hj. simpl.
  destruct (processPlayer_identity c w d p) as (Hid & Hname & _).
  split_and!; try done.
  - apply processPlayer_evaluated.
  - intros Hskip. by rewrite processPlayer_skipped.
Qed.

Lemma processDay_summary_witness :
  let players' :=
    (processDay ex_config [ann_thursday; bob] ex_games "thursday_r1").1.2 in
  let summary :=
    (processDay ex_config [ann_thursday; bob] ex_games "thursday_r1").2 in
  length summary = 2 ∧
  (∃ p' e, players' !! 0 = Some p' ∧ summary !! 0 = Some e ∧
     sum_id e = player_id ann_thursday ∧ sum_name e = name ann_thursday ∧
     sum_status e = status p' ∧
     (sum_result e = Some win ∨ sum_result e = Some loss)) ∧
  (∃ p' e, players' !! 1 = Some p' ∧ summary !! 1 = Some e ∧
     sum_id e = player_id bob ∧ sum_name e = name bob ∧
     sum_status e = status p' ∧
     p' = bob ∧ sum_result e = results bob !! "thursday_r1").
Proof.
  destruct (processDay_summary ex_config [ann_thursday; bob] ex_games
              "thursday_r1") as [Hlen Hentries]; [by_evaluation|].
  split_and!.
  - exact Hlen.
  - destruct (Hentries 0 ann_thursday)
      as (p' & e & ? & ? & ? & ? & ? & ? & Hev & _); [by_evaluation|].
    exists p', e. split_and!; try done. apply Hev. by_evaluation.
  - destruct (Hentries 1 bob)
      as (p' & e & ? & ? & ? & ? & ? & ? & _ & Hskip); [by_evaluation|].
    exists p', e. split_and!; try done; apply Hskip; by_evaluation.
Defined.

(** C9 (as stated) fails: Bob submits for Thursday and for Friday, loses on
    Thursday, and is skipped when Friday is processed, being eliminated; the
    entry of Bob in Friday's summary nevertheless carries the result
    [pending] stored by the submission. *)
Lemma summary_of_skipped_player_not_none :
  let s := run ex_store
    [ PostPicks (mkPickRequest 2 "thursday_r1" ["UNC"; "Gonzaga"] false);
      PostPicks (mkPickRequest 2 "friday_r1" ["Duke"; "Kansas"] false);
      PostProcessDay (Some "secret") "thursday_r1" ] in
  let summary :=
    (processDay (st_config s) (st_players s) (st_games s) "friday_r1").2 in
  status <$> st_players s !! 1 = Some eliminated ∧
  (processDay (st_config s) (st_players s) (st_games s) "friday_r1").1.2 !! 1
    = st_players s !! 1 ∧
  sum_id <$> summary !! 1 = Some 2%Z ∧
  sum_result <$> summary !! 1 = Some (Some pending) ∧
  sum_result <$> summary !! 1 ≠ Some None.
Proof. split_and!; by vm_compute. Qed.

(** ** Sequences of requests *)

(** What a successful submission returns. *)
Lemma submitPick_inr (c : Config) (p : Player) (d : string) (l : list string)
    (b : bool) (p' : Player) :
  submitPick c p d l b = inr p' →
  validatePicks c p d l = inr () ∧
  ((b = false ∧ p' = savePicks p d l) ∨
   (b = true ∧ (buybacks p < 3)%Z ∧ d ∈ buybackDays c ∧
    p' = savePicks (buyBack p) d l)).
Proof.
  unfold submitPick. destruct (validatePicks c p d l) as [e|[]]; [done|].
  destruct b.
  - rewrite applyBuyback_cases. repeat case_decide; intros [= <-].
    split; [done|]. right. split_and!; [done|lia|done..].
  - simpl. intros [= <-]. auto.
Qed.

(** The player at a position after a submission is the player that was
    there, or the updated record of the player the request names. *)
Lemma post_picks_lookup (c : Config) (players : list Player)
    (req : PickRequest) (i : nat) (p : Player) :
  players !! i = Some p →
  (post_picks c players req).2 !! i = Some p ∨
  ∃ p', (post_picks c players req).2 !! i = Some p' ∧
    playerId req = player_id p ∧
    submitPick c p (req_day req) (req_picks req) (isBuyback req) = inr p'.
Proof.
  intros Hi. unfold post_picks.
  destruct (siteLocked c); [by left|].
  destruct (_ || _); [by left|].
  destruct (list_find _ players) as [[k q]|] eqn:Hfind; [|by left].
  destruct (submitPick c q _ _ _) as [e|q'] eqn:Hsub; [by left|]. simpl.
  apply list_find_Some in Hfind as (Hk & Hid & _).
  destruct (decide (k = i)) as [->|Hne].
  - right. assert (q = p) as -> by congruence. exists q'.
    split_and!; [|done..].
    apply list_lookup_insert_eq. by eapply lookup_lt_Some.
  - left. by rewrite list_lookup_insert_ne.
Qed.

Lemma step_lookup (s : Store) (r : Request) (i : nat) (p : Player) :
  st_players s !! i = Some p →
  ∃ p', st_players (step s r) !! i = Some p' ∧ playerStep s p r p'.
Proof.
  intros Hi. destruct r as [req|password d]; simpl.
  - destruct (post_picks_lookup (st_config s) (st_players s) req i p Hi)
      as [Hsame|(p' & Hp' & Hid & Hsub)].
    + exists p. split; [done|constructor].
    + exists p'. split; [done|by constructor].
  - unfold post_process_day.
    destruct (negb _); [exists p; split; [done|constructor]|].
    case_bool_decide; [exists p; split; [done|constructor]|].
    simpl. rewrite list_lookup_fmap, Hi. simpl.
    eexists. split; [done|constructor].
Qed.




(** Day processing leaves an eliminated player as it is. *)
Lemma processPlayer_eliminated (c : Config) (w : gset string) (d : string)
    (p : Player) :
  status p = eliminated → processPlayer c w d p = p.
Proof.
  intros Hst. apply processPlayer_skipped. intros [Halive _]. congruence.
Qed.

(** C8 (as amended): the only request that turns an eliminated player alive
    is a pick submission marked as a buyback, made for that player and
    passing the five checks, and it does so only when the buyback count is
    below 3 and the target day is a buyback day; day processing leaves an
    eliminated player as it is. *)
Theorem revival_only_by_buyback (s : Store) (r : Request) (i : nat)
    (p p' : Player) :
  st_players s !! i = Some p →
  status p = eliminated →
  st_players (step s r) !! i = Some p' →
  (status p' = alive →
     ∃ req, r = PostPicks req ∧ isBuyback req = true ∧
       playerId req = player_id p ∧
       validatePicks (st_config s) p (req_day req) (req_picks req) = inr () ∧
       (buybacks p < 3)%Z ∧
       req_day req ∈ buybackDays (st_config s)) ∧
  (∀ password d, r = PostProcessDay password d → p' = p).
Proof.
  intros Hi Hst Hi'.
  destruct (step_lookup s r i p Hi) as (q & Hq & Hstep).
  assert (q = p') as -> by congruence. clear Hq Hi'.
  destruct Hstep as [r|req p' Hid Hsub|password d].
  - split; [congruence|done].
  - split; [|done]. intros Halive.
    apply submitPick_inr in Hsub as [Hok [[_ ->]|(Hb & ? & ? & ->)]].
    + simpl in Halive. congruence.
    + exists req. by split_and!.
  - rewrite processPlayer_eliminated by done.
    split; [congruence|done].
Qed.

Lemma revival_only_by_buyback_witness :
  let s := mkStore ex_config [ann_eliminated; bob] ex_games in
  let r := PostPicks (mkPickRequest 1 "friday_r1" ["Baylor"; "Houston"] true) in
  ∃ req, r = PostPicks req ∧ isBuyback req = true ∧
    playerId req = player_id ann_eliminated ∧
    validatePicks (st_config s) ann_eliminated (req_day req) (req_picks req)
      = inr () ∧
    (buybacks ann_eliminated < 3)%Z ∧
    req_day req ∈ buybackDays (st_config s).
Proof.
  apply (revival_only_by_buyback
           (mkStore ex_config [ann_eliminated; bob] ex_games)
           (PostPicks (mkPickRequest 1 "friday_r1" ["Baylor"; "Houston"] true))
           0 ann_eliminated
           (savePicks (buyBack ann_eliminated) "friday_r1" ["Baylor"; "Houston"]));
    by_evaluation.
Defined.

(** C8 (as stated) fails: the needs-buyback flag is no condition of a buyback.
    Ann loses on Thursday, which is not a buyback day, and is eliminated
    with the flag cleared; Ann's buyback submission for Friday is accepted
    all the same and sets the status back to alive. *)
Lemma revival_without_needsBuyback :
  let s := run ex_store
    [ PostPicks (mkPickRequest 1 "thursday_r1" ["Duke"; "Kansas"] false);
      PostProcessDay (Some "secret") "thursday_r1" ] in
  let r := PostPicks (mkPickRequest 1 "friday_r1" ["Baylor"; "Houston"] true) in
  status <$> st_players s !! 0 = Some eliminated ∧
  needsBuyback <$> st_players s !! 0 = Some false ∧
  status <$> st_players (step s r) !! 0 = Some alive ∧
  buybacks <$> st_players (step s r) !! 0 = Some 1%Z.
Proof. split_and!; by vm_compute. Qed.

(** ** Further properties of pick submission *)

(** The three guards of the handler, in program order: a locked site refuses
    every request; then a request without player id, day or picks is
    refused; then a request for an unknown player id. Whatever the error,
    the stored players are left as they were. *)
Theorem post_picks_guards (c : Config) (players : list Player)
    (req : PickRequest) :
  (siteLocked c = true → post_picks c players req = (inl SiteLocked, players)) ∧
  (siteLocked c = false →
   playerId req = 0%Z ∨ req_day req = "" ∨ req_picks req = [] →
   post_picks c players req = (inl MissingFields, players)) ∧
  (siteLocked c = false → playerId req ≠ 0%Z → req_day req ≠ "" →
   req_picks req ≠ [] →
   (∀ p, p ∈ players → player_id p ≠ playerId req) →
   post_picks c players req = (inl PlayerNotFound, players)) ∧
  (∀ e, (post_picks c players req).1 = inl e →
        (post_picks c players req).2 = players).
Proof.
  split_and!.
  - intros Hlock. unfold post_picks. by rewrite Hlock.
  - intros Hlock Hmiss. unfold post_picks. rewrite Hlock.
    assert (bool_decide (playerId req = 0%Z) || bool_decide (req_day req = "")
            || bool_decide (req_picks req = []) = true) as ->; [|done].
    destruct Hmiss as [H|[H|H]]; rewrite (bool_decide_eq_true_2 _ H);
      by rewrite ?orb_true_r.
  - intros Hlock Hid Hday Hpicks Hnone. unfold post_picks. rewrite Hlock.
    rewrite !bool_decide_eq_false_2 by done. simpl.
    assert (list_find (λ p, player_id p = playerId req) players = None) as ->;
      [|done].
    apply list_find_None, Forall_forall. exact Hnone.
  - apply post_picks_error.
Qed.

Lemma post_picks_guards_witness :
  post_picks ex_config [ann; bob]
    (mkPickRequest 1 "thursday_r1" [] false)
    = (inl MissingFields, [ann; bob]) ∧
  post_picks ex_config [ann; bob]
    (mkPickRequest 7 "thursday_r1" ["Duke"; "Kansas"] false)
    = (inl PlayerNotFound, [ann; bob]).
Proof.
  split.
  - apply (post_picks_guards ex_config [ann; bob]
             (mkPickRequest 1 "thursday_r1" [] false)); [by_evaluation|].
    right. right. reflexivity.
  - apply (post_picks_guards ex_config [ann; bob]
             (mkPickRequest 7 "thursday_r1" ["Duke"; "Kansas"] false));
      [by_evaluation..|].
    apply Forall_forall. by_evaluation.
Defined.

(** What a successful [submitPick] keeps and writes. *)
Lemma submitPick_fields (c : Config) (p : Player) (d : string)
    (l : list string) (b : bool) (p' : Player) :
  submitPick c p d l b = inr p' →
  player_id p' = player_id p ∧ name p' = name p ∧
  picks p' = <[d := l]> (picks p) ∧
  results p' = <[d := pending]> (results p).
Proof.
  intros Hsub.
  apply submitPick_inr in Hsub as [_ [[_ ->]|(_ & _ & _ & ->)]]; done.
Qed.

(** Position by position, a submission keeps the id and the name of the
    player, and the whole record when the id is not that of the request. *)
Lemma post_picks_position (c : Config) (players : list Player)
    (req : PickRequest) (i : nat) (p : Player) :
  players !! i = Some p →
  ∃ p', (post_picks c players req).2 !! i = Some p' ∧
    player_id p' = player_id p ∧ name p' = name p ∧
    (player_id p ≠ playerId req → p' = p).
Proof.
  intros Hi.
  destruct (post_picks_lookup c players req i p Hi)
    as [Hsame|(p' & Hp' & Hid & Hsub)]; [by exists p|].
  exists p'. apply submitPick_fields in Hsub as (? & ? & _).
  split_and!; [done..|]. intros Hne. by destruct Hne.
Qed.

Lemma post_picks_length (c : Config) (players : list Player)
    (req : PickRequest) :
  length (post_picks c players req).2 = length players.
Proof.
  unfold post_picks. destruct (siteLocked c); [done|].
  destruct (_ || _); [done|].
  destruct (list_find _ players) as [[k q]|]; [|done].
  destruct (submitPick c q _ _ _); [done|]. simpl. apply length_insert.
Qed.

(** Two lists of the same length agree under a projection that agrees at
    every position. *)
Lemma fmap_eq_positions {A B} (f : A → B) (xs ys : list A) :
  length ys = length xs →
  (∀ i x, xs !! i = Some x → ∃ y, ys !! i = Some y ∧ f y = f x) →
  f <$> ys = f <$> xs.
Proof.
  intros Hlen Hpos. apply list_eq. intros i. rewrite !list_lookup_fmap.
  destruct (xs !! i) as [x|] eqn:Hi.
  - destruct (Hpos i x Hi) as (y & -> & Hf). simpl. by rewrite Hf.
  - apply lookup_ge_None in Hi. rewrite <- Hlen in Hi.
    apply lookup_ge_None in Hi. by rewrite Hi.
Qed.

Lemma post_picks_ids (c : Config) (players : list Player)
    (req : PickRequest) :
  player_id <$> (post_picks c players req).2 = player_id <$> players.
Proof.
  apply fmap_eq_positions; [apply post_picks_length|].
  intros i p Hi.
  destruct (post_picks_position c players req i p Hi) as (p' & ? & ? & _).
  by exists p'.
Qed.

(** There is a position outside which a submission changes nothing. *)
Lemma post_picks_one_position (c : Config) (players : list Player)
    (req : PickRequest) :
  ∃ i, ∀ j, j ≠ i → (post_picks c players req).2 !! j = players !! j.
Proof.
  unfold post_picks. destruct (siteLocked c); [by exists 0|].
  destruct (_ || _); [by exists 0|].
  destruct (list_find _ players) as [[k q]|]; [|by exists 0].
  destruct (submitPick c q _ _ _); [by exists 0|].
  exists k. intros j Hj. simpl. by apply list_lookup_insert_ne.
Qed.

(** A submission changes at most one record, that of the first player with
    the id of the request: all positions but one keep their record, the
    list keeps its length, every position keeps its id and name, and every
    player with another id is left as it was. *)
Theorem post_picks_confined (c : Config) (players : list Player)
    (req : PickRequest) :
  length (post_picks c players req).2 = length players ∧
  player_id <$> (post_picks c players req).2 = player_id <$> players ∧
  name <$> (post_picks c players req).2 = name <$> players ∧
  (∀ i p, players !! i = Some p → player_id p ≠ playerId req →
          (post_picks c players req).2 !! i = Some p) ∧
  (∃ i, ∀ j, j ≠ i → (post_picks c players req).2 !! j = players !! j).
Proof.
  split_and!; [..|apply post_picks_one_position].
  - apply post_picks_length.
  - apply post_picks_ids.
  - apply fmap_eq_positions; [apply post_picks_length|].
    intros i p Hi.
    destruct (post_picks_position c players req i p Hi)
      as (p' & ? & _ & ? & _).
    by exists p'.
  - intros i p Hi Hne.
    destruct (post_picks_position c players req i p Hi)
      as (p' & Hp' & _ & _ & Heq).
    by rewrite Hp', (Heq Hne).
Qed.

Lemma post_picks_confined_witness :
  (post_picks ex_config [ann; bob]
     (mkPickRequest 1 "thursday_r1" ["Duke"; "Kansas"] false)).2 !! 1
    = Some bob.
Proof.
  apply (post_picks_confined ex_config [ann; bob]
           (mkPickRequest 1 "thursday_r1" ["Duke"; "Kansas"] false));
    by_evaluation.
Defined.

(** An accepted submission is for a day without recorded picks. *)
Lemma submitPick_fresh_day (c : Config) (p : Player) (d : string)
    (l : list string) (b : bool) (p' : Player) :
  submitPick c p d l b = inr p' → picks p !! d = None.
Proof.
  intros [Hok _]%submitPick_inr.
  apply validatePicks_ok in Hok as (Hsub & _).
  apply eq_None_not_Some. intros Hsome. apply Hsub. by left.
Qed.

(** What acceptance guarantees: an accepted pick list has no repetition,
    consists of roster teams none of which the player had used, has the
    required number of teams (between 1 and 4), and is recorded under a day
    for which nothing was recorded, with result [pending]. *)
Theorem accepted_submission (c : Config) (p : Player) (d : string)
    (l : list string) (b : bool) (p' : Player) :
  submitPick c p d l b = inr p' →
  picks p !! d = None ∧ NoDup l ∧
  (∀ t, t ∈ l → t ∈ teams c ∧ t ∉ usedTeams p) ∧
  length l = getRequiredPicks p d ∧ 1 ≤ length l ≤ 4 ∧
  picks p' = <[d := l]> (picks p) ∧
  results p' = <[d := pending]> (results p).
Proof.
  intros Hsub. pose proof (submitPick_fields _ _ _ _ _ _ Hsub) as (_ & _ & ? & ?).
  apply submitPick_inr in Hsub as [Hok _].
  apply validatePicks_ok in Hok as (Hsub & Hdup & Hre & Hinv & Hcnt).
  assert (length l = getRequiredPicks p d) as Hlen
    by (by apply dec_stable).
  split_and!; try done.
  - apply eq_None_not_Some. intros Hsome. apply Hsub. by left.
  - by apply dec_stable.
  - intros t Ht. split.
    + apply dec_stable. intros Hn. apply Hinv. by exists t.
    + intros (d' & l' & ? & ?)%elem_of_usedTeams. apply Hre.
      by exists t, d', l'.
  - rewrite Hlen. unfold getRequiredPicks.
    destruct (needsBuyback p); simpl; repeat case_bool_decide; simpl; lia.
  - rewrite Hlen. unfold getRequiredPicks.
    destruct (needsBuyback p); simpl; repeat case_bool_decide; simpl; lia.
Qed.

Lemma accepted_submission_witness :
  picks ann !! "thursday_r1" = None ∧ NoDup ["Duke"; "Kansas"] ∧
  (∀ t, t ∈ ["Duke"; "Kansas"] → t ∈ teams ex_config ∧ t ∉ usedTeams ann) ∧
  length ["Duke"; "Kansas"] = getRequiredPicks ann "thursday_r1" ∧
  1 ≤ length ["Duke"; "Kansas"] ≤ 4 ∧
  picks ann_thursday = <[ "thursday_r1" := ["Duke"; "Kansas"] ]> (picks ann) ∧
  results ann_thursday = <[ "thursday_r1" := pending ]> (results ann).
Proof.
  apply (accepted_submission ex_config ann "thursday_r1" ["Duke"; "Kansas"]
           false ann_thursday).
  by_evaluation.
Defined.

(** ** Invariants of the engine *)

(** A property of a player that every request keeps holds after every
    sequence of requests; likewise a preorder between the player before and
    after. *)
Lemma run_player_invariant (P : Player → Prop) :
  (∀ s p r p', playerStep s p r p' → P p → P p') →
  ∀ rs s i p, st_players s !! i = Some p → P p →
    ∃ p', st_players (run s rs) !! i = Some p' ∧ P p'.
Proof.
  intros Hstep. induction rs as [|r rs IH]; intros s i p Hi HP; simpl.
  - eauto.
  - destruct (step_lookup s r i p Hi) as (p1 & Hp1 & Hs).
    apply (IH (step s r) i p1 Hp1). by eapply Hstep.
Qed.

Lemma run_player_relation (R : Player → Player → Prop)
    `{!Reflexive R, !Transitive R} :
  (∀ s p r p', playerStep s p r p' → R p p') →
  ∀ rs s i p, st_players s !! i = Some p →
    ∃ p', st_players (run s rs) !! i = Some p' ∧ R p p'.
Proof.
  intros Hstep. induction rs as [|r rs IH]; intros s i p Hi; simpl.
  - by exists p.
  - destruct (step_lookup s r i p Hi) as (p1 & Hp1 & Hs).
    destruct (IH (step s r) i p1 Hp1) as (p' & Hp' & HR).
    exists p'. split; [done|]. etrans; [by eapply Hstep|done].
Qed.

(** Recording an accepted list keeps the recorded picks free of repeated
    teams. *)
Lemma savePicks_distinct (c : Config) (p q : Player) (d : string)
    (l : list string) :
  picks q = picks p → picksDistinct p → validatePicks c p d l = inr () →
  picksDistinct (savePicks q d l).
Proof.
  intros Hq [Hnd Hdisj] Hok.
  apply validatePicks_ok in Hok as (Hsub & Hdup & Hre & _ & _).
  assert (picks p !! d = None) as Hnone.
  { apply eq_None_not_Some. intros Hsome. apply Hsub. by left. }
  assert (NoDup l) as Hl by (by apply dec_stable).
  assert (∀ t d' l', t ∈ l → picks p !! d' = Some l' → t ∉ l') as Hfresh.
  { intros t d' l' Ht Hd' Ht'. apply Hre. by exists t, d', l'. }
  split; simpl; rewrite Hq.
  - intros d' l'. rewrite lookup_insert. case_decide; [by intros [= <-]|].
    apply Hnd.
  - intros d1 d2 l1 l2 t. rewrite !lookup_insert.
    repeat case_decide; subst; try done.
    + intros [= <-] H2 Ht1 Ht2. by destruct (Hfresh t d2 l2).
    + intros H1 [= <-] Ht1 Ht2. by destruct (Hfresh t d1 l1).
    + apply Hdisj.
Qed.

(** No team is ever picked twice: when the recorded picks of a player have
    no repeated team, they have none after any sequence of pick submissions
    and day processings. *)
Theorem picks_stay_distinct (rs : list Request) (s : Store) (i : nat)
    (p : Player) :
  st_players s !! i = Some p → picksDistinct p →
  ∃ p', st_players (run s rs) !! i = Some p' ∧ picksDistinct p'.
Proof.
  apply run_player_invariant. clear.
  intros s p r p' Hstep Hp.
  destruct Hstep as [r|req p' Hid Hsub|password d]; [done| |].
  - apply submitPick_inr in Hsub as [Hok [[_ ->]|(_ & _ & _ & ->)]];
      by apply (savePicks_distinct (st_config s) p).
  - destruct (processPlayer_identity (st_config s)
                (dayWinners (default [] (st_games s !! d))) d p)
      as (_ & _ & _ & _ & Hpicks).
    unfold picksDistinct. by rewrite Hpicks.
Qed.

Lemma picks_stay_distinct_witness :
  ∃ p',
    st_players
      (run ex_store
         [ PostPicks (mkPickRequest 1 "thursday_r1" ["Duke"; "Kansas"] false);
           PostProcessDay (Some "secret") "thursday_r1";
           PostPicks (mkPickRequest 1 "friday_r1" ["Baylor"; "Houston"] true) ])
      !! 0 = Some p' ∧ picksDistinct p'.
Proof.
  apply (picks_stay_distinct
           [ PostPicks (mkPickRequest 1 "thursday_r1" ["Duke"; "Kansas"] false);
             PostProcessDay (Some "secret") "thursday_r1";
             PostPicks (mkPickRequest 1 "friday_r1" ["Baylor"; "Houston"] true) ]
           ex_store 0 ann); [by_evaluation|].
  split; [intros d l Hl|intros d1 d2 l1 l2 t Hl]; by vm_compute in Hl.
Defined.

#[global] Instance picksKept_refl : Reflexive picksKept.
Proof. by intros p d l. Qed.
#[global] Instance picksKept_trans : Transitive picksKept.
Proof. intros p q r Hpq Hqr d l Hl. by apply Hqr, Hpq. Qed.
(** A recorded pick list is final: no pick submission and no day processing
    alters or removes a pick list that is recorded. *)
Theorem recorded_picks_are_kept (rs : list Request) (s : Store) (i : nat)
    (p : Player) (d : string) (l : list string) :
  st_players s !! i = Some p → picks p !! d = Some l →
  ∃ p', st_players (run s rs) !! i = Some p' ∧ picks p' !! d = Some l.
Proof.
  intros Hi Hl.
  destruct (run_player_relation picksKept) with (rs := rs) (s := s) (i := i)
    (p := p) as (p' & Hp' & Hkept); [|done|by eauto].
  clear. intros s p r p' Hstep.
  destruct Hstep as [r|req p' Hid Hsub|password d0]; [done| |].
  - pose proof (submitPick_fresh_day _ _ _ _ _ _ Hsub) as Hnone.
    apply submitPick_fields in Hsub as (_ & _ & Hpicks & _).
    intros d l Hl. rewrite Hpicks, lookup_insert_ne; [done|congruence].
  - destruct (processPlayer_identity (st_config s)
                (dayWinners (default [] (st_games s !! d0))) d0 p)
      as (_ & _ & _ & _ & Hpicks).
    intros d l. by rewrite Hpicks.
Qed.

Lemma recorded_picks_are_kept_witness :
  ∃ p',
    st_players
      (run (mkStore ex_config [ann_thursday; bob] ex_games)
         [ PostPicks (mkPickRequest 1 "thursday_r1" ["Baylor"; "Houston"] false);
           PostProcessDay (Some "secret") "thursday_r1";
           PostPicks (mkPickRequest 1 "friday_r1" ["Baylor"; "Houston"] true) ])
      !! 0 = Some p' ∧
    picks p' !! "thursday_r1" = Some ["Duke"; "Kansas"].
Proof.
  apply (recorded_picks_are_kept
           [ PostPicks (mkPickRequest 1 "thursday_r1" ["Baylor"; "Houston"] false);
             PostProcessDay (Some "secret") "thursday_r1";
             PostPicks (mkPickRequest 1 "friday_r1" ["Baylor"; "Houston"] true) ]
           (mkStore ex_config [ann_thursday; bob] ex_games) 0 ann_thursday);
    by_evaluation.
Defined.



(** Replacing the element that [list_find] returns by one that passes the
    test as well leaves it the element found. *)
Lemma list_find_insert_found {A} (P : A → Prop) `{!∀ x, Decision (P x)}
    (xs : list A) (i : nat) (x y : A) :
  list_find P xs = Some (i, x) → P y →
  list_find P (<[i := y]> xs) = Some (i, y).
Proof.
  intros (Hi & HPx & Hbefore)%list_find_Some HPy.
  apply list_find_Some. split_and!; [|done|].
  - apply list_lookup_insert_eq. by eapply lookup_lt_Some.
  - intros j z Hj Hlt. rewrite list_lookup_insert_ne in Hj by lia.
    by eapply Hbefore.
Qed.

(** No second submission: once a submission of a player for a day has been
    accepted, every further submission of that player for that day is
    refused with [AlreadySubmitted], and the store stays as the first
    submission left it. *)
Theorem second_submission_refused (c : Config) (players players' : list Player)
    (req req' : PickRequest) (p' : Player) :
  post_picks c players req = (inr p', players') →
  playerId req' = playerId req → req_day req' = req_day req →
  req_picks req' ≠ [] →
  post_picks c players' req' = (inl AlreadySubmitted, players').
Proof.
  intros Hfirst Hid Hday Hpicks. unfold post_picks in Hfirst.
  destruct (siteLocked c) eqn:Hlock; [done|].
  destruct (_ || _) eqn:Hfields; [done|].
  apply orb_false_iff in Hfields as [Hf1 Hf3].
  apply orb_false_iff in Hf1 as [Hf1 Hf2].
  apply bool_decide_eq_false in Hf1, Hf2.
  destruct (list_find _ players) as [[i p]|] eqn:Hfind; [|done].
  destruct (submitPick c p _ _ _) as [e|q] eqn:Hsub; [done|].
  injection Hfirst as <- <-.
  pose proof (submitPick_fields _ _ _ _ _ _ Hsub) as (Hpid & _ & Hpk & _).
  assert (list_find (λ q0, player_id q0 = playerId req') (<[i := q]> players)
          = Some (i, q)) as Hfind'.
  { rewrite Hid. apply (list_find_insert_found _ players i p q Hfind).
    rewrite Hpid. by apply list_find_Some in Hfind as (_ & ? & _). }
  rewrite (post_picks_found c _ req' i q); [|done|congruence..|done].
  rewrite validation_order_first; [done|].
  unfold alreadySubmitted. rewrite Hday, Hpk, lookup_insert_eq. eauto.
Qed.

Lemma second_submission_refused_witness :
  post_picks ex_config [ann_thursday; bob]
    (mkPickRequest 1 "thursday_r1" ["Baylor"; "Houston"] true)
  = (inl AlreadySubmitted, [ann_thursday; bob]).
Proof.
  apply (second_submission_refused ex_config [ann; bob] [ann_thursday; bob]
           (mkPickRequest 1 "thursday_r1" ["Duke"; "Kansas"] false)
           (mkPickRequest 1 "thursday_r1" ["Baylor"; "Houston"] true)
           ann_thursday); by_evaluation.
Defined.

(** ** Further properties of day processing *)

(** [processPlayer] reads only the buyback days of the configuration. *)
Lemma processPlayer_config (c c' : Config) (w : gset string) (d : string)
    (p : Player) :
  buybackDays c' = buybackDays c →
  processPlayer c' w d p = processPlayer c w d p.
Proof. intros Hbd. unfold processPlayer. by rewrite Hbd. Qed.

(** Processing a player that has been processed changes nothing more. *)
Lemma processPlayer_idempotent (c : Config) (w : gset string) (d : string)
    (p : Player) :
  processPlayer c w d (processPlayer c w d p) = processPlayer c w d p.
Proof.
  destruct (status p) eqn:Hst;
    [|by rewrite !(processPlayer_eliminated c w d p Hst)].
  destruct (decide (evaluated p d)) as [[_ (l & Hl & Hne)]|Hskip];
    [|by rewrite !(processPlayer_skipped c w d p Hskip)].
  destruct l as [|t l]; [done|].
  assert (processPlayer c w d p =
            if forallb (λ team, bool_decide (team ∈ w)) (t :: l)
            then setOutcome p d win alive (needsBuyback p)
            else if bool_decide (d ∈ buybackDays c)
                    && bool_decide (buybacks p < 3)%Z
            then setOutcome p d loss eliminated true
            else setOutcome p d loss eliminated false) as ->
    by (unfold processPlayer; by rewrite Hst, Hl).
  destruct (forallb _ (t :: l)) eqn:Hall.
  - unfold processPlayer, setOutcome. simpl. rewrite Hl, Hall.
    by rewrite insert_insert_eq.
  - destruct (_ && _); by apply processPlayer_eliminated.
Qed.

Lemma advanceDay_fields (c : Config) (d : string) :
  teams (advanceDay c d) = teams c ∧
  buybackDays (advanceDay c d) = buybackDays c ∧
  siteLocked (advanceDay c d) = siteLocked c ∧
  lockMessage (advanceDay c d) = lockMessage c ∧
  adminPassword (advanceDay c d) = adminPassword c.
Proof. unfold advanceDay. by destruct (_ && _). Qed.

Lemma advanceDay_idempotent (c : Config) (d : string) :
  advanceDay (advanceDay c d) d = advanceDay c d.
Proof. unfold advanceDay. by destruct (_ && _) eqn:Hcond; rewrite ?Hcond. Qed.

(** Processing a day a second time, right after the first, changes nothing:
    the store after the two requests is the store after the first. *)
Theorem process_day_twice (s : Store) (password : option string)
    (d : string) :
  step (step s (PostProcessDay password d)) (PostProcessDay password d)
    = step s (PostProcessDay password d).
Proof.
  simpl. unfold post_process_day at 2.
  destruct (negb _) eqn:Hauth.
  { simpl. unfold post_process_day. by rewrite Hauth. }
  case_bool_decide as Hd.
  { simpl. unfold post_process_day. rewrite Hauth.
    by rewrite bool_decide_eq_true_2. }
  simpl. unfold post_process_day. simpl.
  destruct (advanceDay_fields (st_config s) d) as (_ & Hbd & _ & _ & Hpw).
  unfold isAdminAuthed in *. rewrite Hpw, Hauth.
  rewrite bool_decide_eq_false_2 by done. simpl.
  rewrite advanceDay_idempotent. f_equal.
  rewrite <- list_fmap_compose. apply list_fmap_ext. intros i p _. simpl.
  rewrite (processPlayer_config (st_config s)) by done.
  apply processPlayer_idempotent.
Qed.

(** What day processing leaves alone: every field of the configuration but
    [currentDay]; the number of players and, position by position, their
    ids, names, pick lists, buyback counts and spends, and their results
    for every other day. *)
Theorem processDay_frame (c : Config) (players : list Player)
    (allGames : gmap string (list Game)) (d : string) :
  let c' := (processDay c players allGames d).1.1 in
  let players' := (processDay c players allGames d).1.2 in
  (teams c' = teams c ∧ buybackDays c' = buybackDays c ∧
   siteLocked c' = siteLocked c ∧ lockMessage c' = lockMessage c ∧
   adminPassword c' = adminPassword c) ∧
  length players' = length players ∧
  player_id <$> players' = player_id <$> players ∧
  name <$> players' = name <$> players ∧
  picks <$> players' = picks <$> players ∧
  buybacks <$> players' = buybacks <$> players ∧
  totalSpent <$> players' = totalSpent <$> players ∧
  (λ p, delete d (results p)) <$> players'
    = (λ p, delete d (results p)) <$> players.
Proof.
  simpl. set (w := dayWinners (default [] (allGames !! d))).
  split; [apply advanceDay_fields|].
  split; [apply length_fmap|].
  split_and!; rewrite <- list_fmap_compose; apply list_fmap_ext;
    intros i p _; simpl;
    destruct (processPlayer_identity c w d p) as (? & ? & ? & ? & ?);
    try done.
  unfold processPlayer. destruct (status p); [|done].
  destruct (picks p !! d) as [[|t l]|]; [done| |done].
  destruct (forallb _ _); [|destruct (_ && _)]; simpl;
    by rewrite delete_insert_eq.
Qed.



(** Who survives a day has won it: after the processing of a day, every
    player who is alive and has a non-empty pick list for the day has the
    result [win] for it, all the picks being winners of the day. *)
Theorem survivors_have_won (c : Config) (players : list Player)
    (allGames : gmap string (list Game)) (d : string) (j : nat)
    (p' : Player) (l : list string) :
  (processDay c players allGames d).1.2 !! j = Some p' →
  status p' = alive → picks p' !! d = Some l → l ≠ [] →
  results p' !! d = Some win ∧
  ∀ t, t ∈ l → isWinner (default [] (allGames !! d)) t.
Proof.
  rewrite processDay_lookup. intros Hj Hst Hl Hne.
  destruct (players !! j) as [p|]; [|done]. injection Hj as <-.
  revert Hst Hl. unfold processPlayer.
  destruct (status p) eqn:Hp; [|simpl; congruence].
  destruct (picks p !! d) as [[|t0 l0]|] eqn:Hpl; [congruence| |congruence].
  destruct (forallb _ (t0 :: l0)) eqn:Hall.
  - simpl. rewrite Hpl. intros _ [= <-]. rewrite lookup_insert_eq.
    split; [done|]. by apply allWon_iff.
  - destruct (_ && _); simpl; congruence.
Qed.

Lemma survivors_have_won_witness :
  results
    (setOutcome bob_thursday "thursday_r1" win alive false) !! "thursday_r1"
    = Some win ∧
  ∀ t, t ∈ ["Duke"; "Baylor"] →
       isWinner (default [] (ex_games !! "thursday_r1")) t.
Proof.
  apply (survivors_have_won ex_config [ann; bob_thursday] ex_games
           "thursday_r1" 1
           (setOutcome bob_thursday "thursday_r1" win alive false)
           ["Duke"; "Baylor"]); by_evaluation.
Defined.

(** [currentDay] stays on the calendar: when it is unset or a day of
    [DAY_ORDER], it is so after any sequence of pick submissions and day
    processings, whatever the days that are processed. *)
Theorem currentDay_stays_valid (rs : list Request) (s : Store) :
  currentDayValid (st_config s) → currentDayValid (st_config (run s rs)).
Proof.
  revert s. induction rs as [|r rs IH]; intros s Hvalid; [done|].
  simpl. apply IH. destruct r as [req|password d]; [done|].
  simpl. unfold post_process_day.
  destruct (negb _); [done|]. case_bool_decide; [done|]. simpl.
  unfold advanceDay. destruct (_ && _); [|done].
  intros d'. cbn [currentDay]. apply list_elem_of_lookup_2.
Qed.

Lemma currentDay_stays_valid_witness :
  currentDayValid
    (st_config
       (run ex_store
          [ PostProcessDay (Some "secret") "thursday_r1";
            PostProcessDay (Some "secret") "no_such_day";
            PostProcessDay (Some "secret") "monday_champ" ])).
Proof.
  apply (currentDay_stays_valid
           [ PostProcessDay (Some "secret") "thursday_r1";
             PostProcessDay (Some "secret") "no_such_day";
             PostProcessDay (Some "secret") "monday_champ" ] ex_store).
  intros d [= <-]. by_evaluation.
Defined.

(** [indexOf] is -1 for a string that the list does not hold. *)
Lemma indexOf_not_elem (d : string) (l : list string) :
  d ∉ l → indexOf d l = (-1)%Z.
Proof.
  induction l as [|x l IH]; [done|].
  intros [Hx Hl]%not_elem_of_cons. simpl.
  rewrite bool_decide_eq_false_2 by done. by rewrite IH.
Qed.

(** A day that is not on the calendar, and not the name of an inherited
    member either, can be processed: the players are evaluated as on any
    day and the configuration is left as it was. *)
Theorem processDay_unknown_day (c : Config) (players : list Player)
    (allGames : gmap string (list Game)) (d : string) :
  d ∉ DAY_ORDER → d ∉ objectPrototypeKeys →
  (processDay c players allGames d).1.1 = c ∧
  (processDay c players allGames d).1.2
    = processPlayer c (dayWinners (default [] (allGames !! d))) d <$> players.
Proof.
  intros Hd _. split; [|done]. simpl. unfold advanceDay.
  by rewrite (indexOf_not_elem d DAY_ORDER Hd).
Qed.

Lemma processDay_unknown_day_witness :
  (processDay ex_config [ann; bob] ex_games "no_such_day").1.1 = ex_config ∧
  (processDay ex_config [ann; bob] ex_games "no_such_day").1.2
    = processPlayer ex_config
        (dayWinners (default [] (ex_games !! "no_such_day"))) "no_such_day"
        <$> [ann; bob].
Proof.
  apply (processDay_unknown_day ex_config [ann; bob] ex_games "no_such_day");
    by_evaluation.
Defined.

(** The pick route reads the roster, the buyback days and the lock of the
    configuration and nothing else: neither [currentDay] nor the calendar
    restricts the day of a submission. *)
Theorem post_picks_reads (c c' : Config) (players : list Player)
    (req : PickRequest) :
  teams c' = teams c → buybackDays c' = buybackDays c →
  siteLocked c' = siteLocked c →
  post_picks c' players req = post_picks c players req.
Proof.
  intros Hteams Hbd Hlock.
  unfold post_picks, submitPick, validatePicks, applyBuyback.
  by rewrite Hteams, Hbd, Hlock.
Qed.

Lemma post_picks_reads_witness :
  post_picks (advanceDay ex_config "saturday_ff") [ann; bob]
    (mkPickRequest 1 "thursday_r1" ["Duke"; "Kansas"] false)
  = post_picks ex_config [ann; bob]
      (mkPickRequest 1 "thursday_r1" ["Duke"; "Kansas"] false).
Proof.
  apply (post_picks_reads ex_config (advanceDay ex_config "saturday_ff")
           [ann; bob]
           (mkPickRequest 1 "thursday_r1" ["Duke"; "Kansas"] false));
    by_evaluation.
Defined.

(** ** The admin routes *)

(** An admin call with a wrong or missing password changes nothing, on
    whatever route. *)
Theorem unauthorized_call_ignored (s : Store) (call : ApiCall)
    (password : option string) :
  callPassword call = Some password →
  isAdminAuthed (st_config s) password = false →
  apiStep s call = s.
Proof.
  intros Hcall Hauth.
  destruct call as [[req|pw d]|pw u|pw body|pw id|pw d games|pw body];
    simplify_eq/=;
    unfold post_process_day, post_admin_config, post_admin_player,
      delete_admin_player, post_admin_games, post_admin_game_result;
    by rewrite Hauth.
Qed.

Lemma unauthorized_call_ignored_witness :
  apiStep ex_store (DeleteAdminPlayer (Some "guess") 1) = ex_store.
Proof.
  apply (unauthorized_call_ignored ex_store
           (DeleteAdminPlayer (Some "guess") 1) (Some "guess"));
    by_evaluation.
Defined.

Lemma apiStep_adminPassword (s : Store) (call : ApiCall) :
  adminPassword (st_config (apiStep s call)) = adminPassword (st_config s).
Proof.
  destruct call as [[req|pw d]|pw u|pw body|pw id|pw d games|pw body]; simpl.
  - done.
  - unfold post_process_day. destruct (negb _); [done|].
    case_bool_decide; [done|]. simpl. apply advanceDay_fields.
  - unfold post_admin_config. by destruct (negb _).
  - unfold post_admin_player. destruct (negb _); [done|].
    by destruct (upsertPlayer _ _).
  - unfold delete_admin_player. destruct (negb _); [done|].
    by destruct (removePlayer _ _).
  - unfold post_admin_games. destruct (negb _); [done|].
    destruct games; [|done]. by case_bool_decide.
  - unfold post_admin_game_result. destruct (negb _); [done|].
    by destruct (recordResult _ _) as [|[]].
Qed.

(** No route changes the admin password, not even the configuration route
    with a body that carries one: after any sequence of calls the password
    is the one of the start, and a header is accepted after the calls
    exactly when it was before. *)
Theorem adminPassword_is_fixed (calls : list ApiCall) (s : Store) :
  adminPassword (st_config (apiRun s calls)) = adminPassword (st_config s) ∧
  ∀ password,
    isAdminAuthed (st_config (apiRun s calls)) password
      = isAdminAuthed (st_config s) password.
Proof.
  assert (adminPassword (st_config (apiRun s calls))
          = adminPassword (st_config s)) as Hpw.
  { revert s. induction calls as [|call calls IH]; intros s; [done|].
    simpl. by rewrite IH, apiStep_adminPassword. }
  split; [done|]. intros password. unfold isAdminAuthed. by rewrite Hpw.
Qed.

(** Locking the site through the configuration route makes the pick route
    refuse every request with [SiteLocked]. *)
Theorem lock_refuses_picks (s : Store) (password : option string)
    (u : ConfigUpdate) (req : PickRequest) :
  isAdminAuthed (st_config s) password = true →
  u_siteLocked u = Some true →
  let s' := apiStep s (PostAdminConfig password u) in
  st_players s' = st_players s ∧
  post_picks (st_config s') (st_players s') req
    = (inl SiteLocked, st_players s).
Proof.
  intros Hauth Hlock. simpl. unfold post_admin_config. rewrite Hauth. simpl.
  split; [done|]. unfold post_picks. simpl. by rewrite Hlock.
Qed.

Lemma lock_refuses_picks_witness :
  let s' :=
    apiStep ex_store
      (PostAdminConfig (Some "secret")
         (mkConfigUpdate None None None (Some true) (Some "Back soon") None)) in
  st_players s' = st_players ex_store ∧
  post_picks (st_config s') (st_players s')
    (mkPickRequest 1 "thursday_r1" ["Duke"; "Kansas"] false)
    = (inl SiteLocked, st_players ex_store).
Proof.
  apply (lock_refuses_picks ex_store (Some "secret")
           (mkConfigUpdate None None None (Some true) (Some "Back soon") None)
           (mkPickRequest 1 "thursday_r1" ["Duke"; "Kansas"] false));
    by_evaluation.
Defined.

(** [maxId] bounds every id of the list. *)
Lemma foldr_max_ge (a : Z) (l : list Z) :
  (a ≤ foldr Z.max a l)%Z ∧ ∀ x, x ∈ l → (x ≤ foldr Z.max a l)%Z.
Proof.
  induction l as [|y l [IHa IHl]]; simpl.
  - split; [lia|]. by intros x ?%elem_of_nil.
  - split; [lia|]. intros x [->|Hx]%elem_of_cons; [lia|].
    specialize (IHl x Hx). lia.
Qed.

Lemma maxId_ge (players : list Player) (p : Player) :
  p ∈ players → (player_id p ≤ maxId players)%Z.
Proof.
  destruct players as [|q ps]; [by intros ?%elem_of_nil|]. simpl.
  destruct (foldr_max_ge (player_id q) (player_id <$> ps)) as [Hq Hps].
  intros [->|Hp]%elem_of_cons; [done|].
  apply Hps, list_elem_of_fmap. by exists p.
Qed.

(** [maxId] is 0 for the empty list and an id of the list otherwise. *)
Lemma foldr_max_elem (a : Z) (l : list Z) : foldr Z.max a l ∈ a :: l.
Proof.
  induction l as [|y l IH]; simpl; [left|].
  destruct (Z.max_spec y (foldr Z.max a l)) as [[_ ->]|[_ ->]].
  - apply elem_of_cons in IH as [->|IH]; [left|right; by right].
  - right. left.
Qed.

Lemma maxId_within (k : Z) (players : list Player) :
  idsWithin k players → (- maxExact ≤ maxId players ≤ maxExact - k)%Z.
Proof.
  intros [Hk Hids]. destruct players as [|q ps]; [simpl; lia|].
  rewrite Forall_forall in Hids. apply Hids.
  change (maxId (q :: ps))
    with (foldr Z.max (player_id q) (player_id <$> ps)).
  rewrite fmap_cons. apply foldr_max_elem.
Qed.

(** With room for one more id, the created id is the next integer. *)
Lemma createPlayer_id (players : list Player) (body : PlayerBody) :
  idsWithin 1 players →
  player_id (createPlayer players body) = (maxId players + 1)%Z.
Proof.
  intros Hids%maxId_within. simpl. apply jsAdd_exact. lia.
Qed.

(** A created player is new: when the stored ids are within [2^53], the
    created id is greater than every id of the list, so that no stored
    player has it. Whatever the ids and the body, the created player has
    neither an empty name nor a spend of 0. *)
Theorem createPlayer_fresh (players : list Player) (body : PlayerBody) :
  (idsWithin 1 players →
   Forall (λ p, (player_id p < player_id (createPlayer players body))%Z)
     players ∧
   (player_id (createPlayer players body) ∉ player_id <$> players)) ∧
  name (createPlayer players body) ≠ "" ∧
  totalSpent (createPlayer players body) ≠ 0%Z.
Proof.
  split_and!.
  - intros Hids. rewrite createPlayer_id by done. split.
    + apply Forall_forall. intros p Hp%maxId_ge. lia.
    + intros (p & Hid & Hp%maxId_ge)%list_elem_of_fmap. lia.
  - simpl. destruct (b_name body) as [nm|]; [|done]. by case_bool_decide.
  - simpl. destruct (b_totalSpent body) as [n|]; [|done]. by case_bool_decide.
Qed.

Lemma createPlayer_fresh_witness :
  Forall (λ p, (player_id p < player_id
                  (createPlayer [ann; bob]
                     (mkPlayerBody (Some 2%Z) (Some "Cy") None None None None
                        None None)))%Z) [ann; bob] ∧
  (player_id
     (createPlayer [ann; bob]
        (mkPlayerBody (Some 2%Z) (Some "Cy") None None None None None None))
   ∉ player_id <$> [ann; bob]).
Proof.
  apply (createPlayer_fresh [ann; bob]
           (mkPlayerBody (Some 2%Z) (Some "Cy") None None None None None
              None)).
  split; [done|]. by_evaluation.
Defined.

(** Without that room it is not: next to a stored id of [2^53] the created
    player gets that same id. *)
Lemma createPlayer_id_rounds :
  player_id
    (createPlayer
       [mergePlayer ann
          (mkPlayerBody (Some maxExact) None None None None None None None)]
       (mkPlayerBody None None None None None None None None))
  = maxExact.
Proof. reflexivity. Qed.

(** The two branches of the player route. A body whose id is that of a
    stored player updates the first such player in place: the list keeps
    its length and its ids. Any other body, one with the id 0 or with an id
    that no player has included, adds a created player at the end; with the
    stored ids within [2^53] its id is the greatest stored id plus 1,
    whatever id the body gives. *)
Theorem upsertPlayer_branches (players : list Player) (body : PlayerBody) :
  (∀ i p, b_id body = Some (player_id p) → player_id p ≠ 0%Z →
     list_find (λ q, player_id q = player_id p) players = Some (i, p) →
     upsertPlayer players body
       = (mergePlayer p body, <[i := mergePlayer p body]> players) ∧
     player_id (mergePlayer p body) = player_id p ∧
     length (upsertPlayer players body).2 = length players ∧
     player_id <$> (upsertPlayer players body).2 = player_id <$> players) ∧
  (∀ id, b_id body = Some id →
     id = 0%Z ∨ id ∉ (player_id <$> players) →
     upsertPlayer players body
       = (createPlayer players body, players ++ [createPlayer players body]) ∧
     (idsWithin 1 players →
      player_id (createPlayer players body) = (maxId players + 1)%Z)).
Proof.
  split.
  - intros i p Hid Hnz Hfind. unfold upsertPlayer.
    rewrite Hid, bool_decide_eq_false_2, Hfind by done.
    assert (player_id (mergePlayer p body) = player_id p) as Hsame
      by (simpl; by rewrite Hid).
    split_and!; [done..| |]; simpl.
    + apply length_insert.
    + rewrite list_fmap_insert, Hsame. apply list_insert_id.
      rewrite list_lookup_fmap.
      apply list_find_Some in Hfind as (-> & _). done.
  - intros id Hid Hnew. unfold upsertPlayer. rewrite Hid.
    split; [|apply createPlayer_id]. case_bool_decide as Hz; [done|].
    destruct Hnew as [?|Hnew]; [done|].
    assert (list_find (λ p, player_id p = id) players = None) as ->; [|done].
    apply list_find_None, Forall_forall. intros p Hp Hpid. apply Hnew.
    apply list_elem_of_fmap. by exists p.
Qed.

Lemma upsertPlayer_branches_witness :
  (upsertPlayer [ann; bob]
     (mkPlayerBody (Some 2%Z) None (Some eliminated) None None None None None)
   = (mergePlayer bob
        (mkPlayerBody (Some 2%Z) None (Some eliminated) None None None None
           None),
      <[1 := mergePlayer bob
               (mkPlayerBody (Some 2%Z) None (Some eliminated) None None None
                  None None)]> [ann; bob])) ∧
  player_id (createPlayer [ann; bob]
     (mkPlayerBody (Some 9%Z) (Some "Cy") None None None None None None))
    = (maxId [ann; bob] + 1)%Z.
Proof.
  split.
  - apply (upsertPlayer_branches [ann; bob]
             (mkPlayerBody (Some 2%Z) None (Some eliminated) None None None
                None None) ); by_evaluation.
  - apply (proj2 (upsertPlayer_branches [ann; bob]
             (mkPlayerBody (Some 9%Z) (Some "Cy") None None None None None
                None)) 9%Z); [by_evaluation| |].
    + right. by_evaluation.
    + split; [done|]. by_evaluation.
Defined.

(** [xs.filter(f)] is as long as [xs] exactly when every element passes. *)
Lemma filter_length_eq {A} (P : A → Prop) `{!∀ x, Decision (P x)}
    (xs : list A) :
  length (filter P xs) = length xs ↔ Forall P xs.
Proof.
  induction xs as [|x xs IH]; [by split; [constructor|]|].
  pose proof (length_filter P xs) as Hle.
  destruct (decide (P x)) as [HP|HP].
  - rewrite filter_cons_True by done. simpl. rewrite Forall_cons.
    split; [intros [= Hlen]; by split; [|apply IH]|].
    intros [_ Hall]. f_equal. by apply IH.
  - rewrite filter_cons_False by done. simpl. rewrite Forall_cons.
    split; [lia|tauto].
Qed.

Lemma filter_Forall_id {A} (P : A → Prop) `{!∀ x, Decision (P x)}
    (xs : list A) :
  Forall P xs → filter P xs = xs.
Proof.
  induction 1 as [|x xs Hx _ IH]; [done|].
  rewrite filter_cons_True by done. by rewrite IH.
Qed.

(** Deleting a player: the route answers [NoSuchPlayer], and leaves the list
    as it is, exactly when no player has the id; otherwise it removes every
    player with the id and keeps the others, in their order. *)
Theorem removePlayer_spec (players : list Player) (id : Z) :
  (removePlayer players id = inl NoSuchPlayer ↔
     id ∉ (player_id <$> players)) ∧
  (∀ players', removePlayer players id = inr players' →
     players' = filter (λ p, player_id p ≠ id) players ∧
     (id ∉ player_id <$> players') ∧
     players' `sublist_of` players ∧
     length players' < length players).
Proof.
  unfold removePlayer.
  pose proof (length_filter (λ p, player_id p ≠ id) players) as Hle.
  pose proof (filter_length_eq (λ p, player_id p ≠ id) players) as Heq.
  split.
  - case_bool_decide as Hlen.
    + split; [|done]. intros _ (p & Hid & Hp)%list_elem_of_fmap.
      apply Heq in Hlen. rewrite Forall_forall in Hlen. by apply (Hlen p).
    + split; [done|]. intros Hnot. destruct Hlen. apply Heq, Forall_forall.
      intros p Hp Hid. apply Hnot, list_elem_of_fmap. by exists p.
  - intros players'. case_bool_decide as Hlen; [done|]. intros [= <-].
    split_and!; [done| |apply sublist_filter|lia].
    intros (p & Hid & [Hne _]%list_elem_of_filter)%list_elem_of_fmap.
    done.
Qed.

Lemma removePlayer_spec_witness :
  removePlayer [ann; bob] 5 = inl NoSuchPlayer ∧
  [bob] = filter (λ p, player_id p ≠ 1%Z) [ann; bob].
Proof.
  split.
  - apply (removePlayer_spec [ann; bob] 5). by_evaluation.
  - apply (proj2 (removePlayer_spec [ann; bob] 1) [bob]). by_evaluation.
Defined.

Lemma removePlayer_last (players : list Player) (q : Player) :
  Forall (λ p, player_id p ≠ player_id q) players →
  removePlayer (players ++ [q]) (player_id q) = inr players.
Proof.
  intros Hfresh. unfold removePlayer.
  rewrite filter_app, filter_cons_False, filter_nil, app_nil_r by tauto.
  rewrite filter_Forall_id by done.
  rewrite bool_decide_eq_false_2; [done|].
  rewrite length_app. simpl. lia.
Qed.

(** Creating a player and deleting the created id gives back the list,
    when the stored ids are within [2^53]: the new id then belongs to the
    new record alone. *)
Theorem create_then_delete (players : list Player) (body : PlayerBody) :
  b_id body = None →
  idsWithin 1 players →
  removePlayer (upsertPlayer players body).2
    (player_id (upsertPlayer players body).1) = inr players.
Proof.
  intros Hid Hids. unfold upsertPlayer. rewrite Hid. cbn [fst snd].
  apply removePlayer_last, Forall_forall.
  intros p Hp%maxId_ge. rewrite createPlayer_id by done. lia.
Qed.

Lemma create_then_delete_witness :
  let body := mkPlayerBody None (Some "Cy") None None None None None None in
  removePlayer (upsertPlayer [ann; bob] body).2
    (player_id (upsertPlayer [ann; bob] body).1) = inr [ann; bob].
Proof.
  apply (create_then_delete [ann; bob]
           (mkPlayerBody None (Some "Cy") None None None None None None)).
  - reflexivity.
  - split; [done|]. by_evaluation.
Defined.

(** The ids after the player route: those of before, with the created id at
    the end when a player is created. *)
Lemma upsertPlayer_ids (players : list Player) (body : PlayerBody) :
  player_id <$> (upsertPlayer players body).2 = player_id <$> players ∨
  player_id <$> (upsertPlayer players body).2
    = (player_id <$> players) ++ [player_id (createPlayer players body)].
Proof.
  assert (player_id <$> players ++ [createPlayer players body]
          = (player_id <$> players) ++ [player_id (createPlayer players body)])
    as Hcreate by (by rewrite fmap_app).
  unfold upsertPlayer.
  destruct (b_id body) as [id|] eqn:Hid; [|by right].
  case_bool_decide as Hz; [by right|].
  destruct (list_find _ players) as [[i p]|] eqn:Hfind; [|by right].
  left. apply list_find_Some in Hfind as (Hi & Hp & _).
  cbn [snd]. rewrite list_fmap_insert.
  apply list_insert_id. rewrite list_lookup_fmap, Hi. simpl.
  by rewrite Hid, Hp.
Qed.

Lemma processDay_ids (c : Config) (w : gset string) (d : string)
    (players : list Player) :
  player_id <$> (processPlayer c w d <$> players) = player_id <$> players.
Proof.
  rewrite <- list_fmap_compose. apply list_fmap_ext. intros i p _. simpl.
  apply processPlayer_identity.
Qed.

(** Room for [k + 1] ids is room for [k]. *)
Lemma idsWithin_less (k : Z) (players : list Player) :
  (0 ≤ k)%Z → idsWithin (k + 1) players → idsWithin k players.
Proof.
  intros Hk [Hk1 Hids]. split; [lia|].
  eapply Forall_impl; [exact Hids|]. simpl. intros id ?. lia.
Qed.

(** One call keeps the ids unique and uses up room for at most one id. *)
Lemma apiStep_uniqueIds (k : Z) (s : Store) (call : ApiCall) :
  (0 ≤ k)%Z → idsWithin (k + 1) (st_players s) → uniqueIds (st_players s) →
  idsWithin k (st_players (apiStep s call)) ∧
  uniqueIds (st_players (apiStep s call)).
Proof.
  intros Hk Hroom Hnd.
  pose proof (idsWithin_less k _ Hk Hroom) as Hless.
  assert (∀ players',
            player_id <$> players' = player_id <$> st_players s →
            idsWithin k players' ∧ uniqueIds players') as Hsame.
  { intros players' Hids. unfold idsWithin, uniqueIds. rewrite Hids.
    split; [apply Hless|done]. }
  destruct call as [[req|pw d]|pw u|pw body|pw id|pw d games|pw body]; simpl.
  - apply Hsame, post_picks_ids.
  - unfold post_process_day. destruct (negb _); [by apply Hsame|].
    case_bool_decide; [by apply Hsame|]. simpl. apply Hsame, processDay_ids.
  - unfold post_admin_config. destruct (negb _); by apply Hsame.
  - unfold post_admin_player. destruct (negb _); [by apply Hsame|].
    assert (idsWithin 1 (st_players s)) as Hone.
    { destruct Hroom as [Hk1 Hall]. split; [unfold maxExact; lia|].
      eapply Forall_impl; [exact Hall|]. simpl. intros x ?. lia. }
    pose proof (createPlayer_id (st_players s) body Hone) as Hnew.
    pose proof (maxId_within _ _ Hroom) as Hmax.
    destruct (upsertPlayer_ids (st_players s) body) as [Hids|Hids];
      rewrite ?Hnew in Hids;
      destruct (upsertPlayer _ _) as [q players']; cbn [fst snd] in Hids |- *;
      [by apply Hsame|].
    unfold idsWithin, uniqueIds. cbn [st_players]. rewrite Hids. split.
    + split; [apply Hless|]. apply Forall_app. split; [apply Hless|].
      apply Forall_singleton. lia.
    + apply NoDup_app. split_and!; [done| |apply NoDup_singleton].
      intros x (p & -> & Hp%maxId_ge)%list_elem_of_fmap
        Hx%list_elem_of_singleton. lia.
  - unfold delete_admin_player. destruct (negb _); [by apply Hsame|].
    unfold removePlayer. case_bool_decide; [by apply Hsame|]. simpl.
    assert (player_id <$> filter (λ p, player_id p ≠ id) (st_players s)
            `sublist_of` player_id <$> st_players s) as Hsub
      by apply fmap_sublist, sublist_filter.
    split.
    + split; [apply Hless|]. destruct Hless as [_ Hall].
      rewrite Forall_forall in Hall. apply Forall_forall.
      intros x Hx. apply Hall. by eapply elem_of_sublist.
    + by eapply sublist_NoDup.
  - unfold post_admin_games. destruct (negb _); [by apply Hsame|].
    destruct games; [|by apply Hsame]. case_bool_decide; by apply Hsame.
  - unfold post_admin_game_result. destruct (negb _); [by apply Hsame|].
    destruct (recordResult _ _) as [|[]]; by apply Hsame.
Qed.

(** Player ids stay unique: when the stored players have pairwise different
    ids that are at least [-2^53] and leave room below [2^53] for one id
    per call, they have pairwise different ids after the calls, to whatever
    routes. *)
Theorem ids_stay_unique (calls : list ApiCall) (s : Store) :
  idsWithin (Z.of_nat (length calls)) (st_players s) →
  uniqueIds (st_players s) → uniqueIds (st_players (apiRun s calls)).
Proof.
  revert s. induction calls as [|call calls IH]; intros s Hroom Hnd; [done|].
  simpl. rewrite length_cons, Nat2Z.inj_succ, <- Z.add_1_r in Hroom.
  destruct (apiStep_uniqueIds (Z.of_nat (length calls)) s call)
    as [Hroom' Hnd']; [lia|done..|].
  by apply IH.
Qed.

Lemma ids_stay_unique_witness :
  uniqueIds
    (st_players
       (apiRun ex_store
          [ PostAdminPlayer (Some "secret")
              (mkPlayerBody None (Some "Cy") None None None None None None);
            DeleteAdminPlayer (Some "secret") 1;
            PostAdminPlayer (Some "secret")
              (mkPlayerBody (Some 2%Z) (Some "Rob") None None None None None
                 None);
            Engine (PostPicks
              (mkPickRequest 3 "thursday_r1" ["Duke"; "Baylor"] false));
            PostAdminPlayer (Some "secret")
              (mkPlayerBody (Some 1%Z) (Some "Dee") None None None None None
                 None) ])).
Proof.
  apply (ids_stay_unique
          [ PostAdminPlayer (Some "secret")
              (mkPlayerBody None (Some "Cy") None None None None None None);
            DeleteAdminPlayer (Some "secret") 1;
            PostAdminPlayer (Some "secret")
              (mkPlayerBody (Some 2%Z) (Some "Rob") None None None None None
                 None);
            Engine (PostPicks
              (mkPickRequest 3 "thursday_r1" ["Duke"; "Baylor"] false));
            PostAdminPlayer (Some "secret")
              (mkPlayerBody (Some 1%Z) (Some "Dee") None None None None None
                 None) ] ex_store).
  - split; [done|]. by_evaluation.
  - by_evaluation.
Defined.

(** ** Game results *)

(** What a successful result post is made of. *)
Lemma recordResult_inr (allGames allGames' : gmap string (list Game))
    (body : ResultBody) (game' : Game) :
  recordResult allGames body = inr (game', allGames') →
  ∃ dayGames i game,
    allGames !! r_day body = Some dayGames ∧
    dayGames !! i = Some game ∧ game_id game = r_gameId body ∧
    (∀ j g, dayGames !! j = Some g → j < i → game_id g ≠ r_gameId body) ∧
    game' = assignResult game body ∧
    allGames' = <[r_day body := <[i := game']> dayGames]> allGames.
Proof.
  unfold recordResult. destruct (_ || _); [done|].
  destruct (allGames !! r_day body) as [dayGames|]; [|done].
  destruct (list_find _ dayGames) as [[i game]|] eqn:Hfind; [|done].
  intros [= <- <-].
  apply list_find_Some in Hfind as (Hi & Hid & Hbefore).
  exists dayGames, i, game. split_and!; try done.
Qed.

(** A result post touches one game: it adds or removes no day and no game,
    leaves the other days and the other games of the day as they were, and
    changes neither the id nor the teams of the game it updates. *)
Theorem recordResult_confined (allGames allGames' : gmap string (list Game))
    (body : ResultBody) (game' : Game) :
  recordResult allGames body = inr (game', allGames') →
  dom allGames' = dom allGames ∧
  (∀ d, d ≠ r_day body → allGames' !! d = allGames !! d) ∧
  ∃ dayGames dayGames',
    allGames !! r_day body = Some dayGames ∧
    allGames' !! r_day body = Some dayGames' ∧
    game_id <$> dayGames' = game_id <$> dayGames ∧
    home <$> dayGames' = home <$> dayGames ∧
    away <$> dayGames' = away <$> dayGames ∧
    (∀ j g, dayGames !! j = Some g → game_id g ≠ r_gameId body →
            dayGames' !! j = Some g).
Proof.
  intros (dayGames & i & game & Hday & Hi & Hid & _ & -> & ->)%recordResult_inr.
  split_and!.
  - rewrite dom_insert_L. apply subseteq_union_1_L, singleton_subseteq_l.
    by eapply elem_of_dom_2.
  - intros d Hne. by rewrite lookup_insert_ne.
  - exists dayGames, (<[i := assignResult game body]> dayGames).
    rewrite lookup_insert_eq.
    split_and!; try done.
    + rewrite list_fmap_insert. apply list_insert_id.
      by rewrite list_lookup_fmap, Hi.
    + rewrite list_fmap_insert. apply list_insert_id.
      by rewrite list_lookup_fmap, Hi.
    + rewrite list_fmap_insert. apply list_insert_id.
      by rewrite list_lookup_fmap, Hi.
    + intros j g Hj Hne. rewrite list_lookup_insert_ne; [done|].
      intros ->. congruence.
Qed.

(** A posted winner counts: after a result post that marks a game final
    with a winner, that team is in the winners set that day processing
    computes for the day. *)
Theorem recorded_winner_counts (allGames allGames' : gmap string (list Game))
    (body : ResultBody) (game' : Game) (w : string) :
  recordResult allGames body = inr (game', allGames') →
  r_final body = Some true → r_winner body = Some (Some w) → w ≠ "" →
  w ∈ dayWinners (default [] (allGames' !! r_day body)).
Proof.
  intros (dayGames & i & game & Hday & Hi & Hid & _ & -> & ->)%recordResult_inr
    Hfinal Hwinner Hne.
  rewrite lookup_insert_eq. simpl. apply elem_of_dayWinners.
  exists (assignResult game body). split_and!; [|simpl..|done].
  - apply list_elem_of_lookup. exists i.
    apply list_lookup_insert_eq. by eapply lookup_lt_Some.
  - by rewrite Hfinal.
  - by rewrite Hwinner.
Qed.

(** A result post whose body gives no score, no final flag and no winner
    changes nothing, and answers with the game as it is stored. *)
Theorem recordResult_empty_body (allGames allGames' : gmap string (list Game))
    (body : ResultBody) (game' : Game) :
  recordResult allGames body = inr (game', allGames') →
  r_homeScore body = None → r_awayScore body = None →
  r_final body = None → r_winner body = None →
  allGames' = allGames ∧
  game' ∈ default [] (allGames !! r_day body).
Proof.
  intros (dayGames & i & game & Hday & Hi & Hid & _ & -> & ->)%recordResult_inr
    Hh Ha Hf Hw.
  assert (assignResult game body = game) as ->.
  { unfold assignResult. rewrite Hh, Ha, Hf, Hw. by destruct game. }
  rewrite list_insert_id by done. split; [by apply insert_id|].
  rewrite Hday. simpl. by eapply list_elem_of_lookup_2.
Qed.

Lemma recordResult_confined_witness :
  dom ex_games_after = dom ex_games.
Proof.
  apply (recordResult_confined ex_games ex_games_after ex_result
           (mkGame "g2" "Kansas" "Gonzaga" (Some 80%Z) (Some 75%Z) true
              (Some "Kansas"))).
  by_evaluation.
Defined.

Lemma recorded_winner_counts_witness :
  "Kansas" ∈ dayWinners (default [] (ex_games_after !! r_day ex_result)).
Proof.
  apply (recorded_winner_counts ex_games ex_games_after ex_result
           (mkGame "g2" "Kansas" "Gonzaga" (Some 80%Z) (Some 75%Z) true
              (Some "Kansas")) "Kansas"); by_evaluation.
Defined.

Lemma recordResult_empty_body_witness :
  mkGame "g2" "Kansas" "Gonzaga" (Some 80%Z) (Some 75%Z) true (Some "Kansas")
    ∈ default [] (ex_games_after !! "thursday_r1").
Proof.
  apply (recordResult_empty_body ex_games_after ex_games_after
           (mkResultBody "thursday_r1" "g2" None None None None)
           (mkGame "g2" "Kansas" "Gonzaga" (Some 80%Z) (Some 75%Z) true
              (Some "Kansas"))); by_evaluation.
Defined.

(** ** Elimination and the needs-buyback flag *)

(** After three buybacks elimination is final: a player who is eliminated
    with a buyback count of 3 or more is so after any sequence of pick
    submissions and day processings. *)
Theorem out_for_good (rs : list Request) (s : Store) (i : nat) (p : Player) :
  st_players s !! i = Some p → outForGood p →
  ∃ p', st_players (run s rs) !! i = Some p' ∧ outForGood p'.
Proof.
  apply run_player_invariant. clear.
  intros s p r p' Hstep [Hst Hbb].
  destruct Hstep as [r|req p' Hid Hsub|password d]; [done| |].
  - apply submitPick_inr in Hsub as [_ [[_ ->]|(_ & ? & _ & ->)]];
      [done|lia].
  - by rewrite processPlayer_eliminated.
Qed.

Lemma out_for_good_witness :
  ∃ p',
    st_players
      (run (mkStore ex_config [ann_gone; bob] ex_games)
         [ PostPicks (mkPickRequest 1 "friday_r1" ["Baylor"; "Houston"] true);
           PostPicks (mkPickRequest 1 "friday_r1" ["Baylor"; "Houston"] false);
           PostProcessDay (Some "secret") "friday_r1" ])
      !! 0 = Some p' ∧ outForGood p'.
Proof.
  apply (out_for_good
           [ PostPicks (mkPickRequest 1 "friday_r1" ["Baylor"; "Houston"] true);
             PostPicks (mkPickRequest 1 "friday_r1" ["Baylor"; "Houston"] false);
             PostProcessDay (Some "secret") "friday_r1" ]
           (mkStore ex_config [ann_gone; bob] ex_games) 0 ann_gone);
    [by_evaluation|].
  split; by_evaluation.
Defined.

(** The flag tells the truth: when the needs-buyback flag of a player, if
    set, goes with an eliminated status and a buyback count below 3, it
    does so after any sequence of pick submissions and day processings. *)
Theorem flag_means_buyback (rs : list Request) (s : Store) (i : nat)
    (p : Player) :
  st_players s !! i = Some p → flagMeansBuyback p →
  ∃ p', st_players (run s rs) !! i = Some p' ∧ flagMeansBuyback p'.
Proof.
  apply run_player_invariant. clear.
  intros s p r p' Hstep Hflag. unfold flagMeansBuyback in *.
  destruct Hstep as [r|req p' Hid Hsub|password d]; [done| |].
  - apply submitPick_inr in Hsub as [_ [[_ ->]|(_ & ? & _ & ->)]]; done.
  - destruct (decide (status p = eliminated)) as [Hel|Hal];
      [by rewrite processPlayer_eliminated|].
    assert (needsBuyback p = false) as Hnb.
    { destruct (needsBuyback p); [|done]. by destruct Hflag. }
    unfold processPlayer. destruct (status p); [|done].
    destruct (picks p !! d) as [[|t l]|];
      [by rewrite Hnb| |by rewrite Hnb].
    destruct (forallb _ _); [simpl; by rewrite Hnb|].
    destruct (bool_decide (d ∈ buybackDays (st_config s))); simpl; [|done].
    case_bool_decide; simpl; done.
Qed.

Lemma flag_means_buyback_witness :
  ∃ p',
    st_players
      (run (mkStore ex_config [ann; bob_friday] ex_games)
         [ PostProcessDay (Some "secret") "friday_r1" ])
      !! 1 = Some p' ∧ flagMeansBuyback p'.
Proof.
  apply (flag_means_buyback
           [ PostProcessDay (Some "secret") "friday_r1" ]
           (mkStore ex_config [ann; bob_friday] ex_games) 1 bob_friday);
    [by_evaluation|].
  intros Hflag. by vm_compute in Hflag.
Defined.
